(** * isaac-floor-recorder: a shallow embedding of [src/main.ts]

    The mod is a set of three engine callbacks over a handful of
    module-level variables.  The embedding keeps that shape: the variables
    are the fields of [State], every TypeScript function is a computation
    in a small state-and-exception monad [M] that also reads the host
    game ([Host]) and appends the commands it issues to a log. *)

From stdpp Require Import gmap strings list fin_maps pretty.
From Stdlib Require Import ZArith Lia.

Local Open Scope Z_scope.

(** ** Host API enumerations

    The enums come from the host API's type declarations
    (isaac-typescript-definitions), which the source only imports.  Their
    ordinals are the ones of the game's Lua API. *)

Module LevelStage.
Definition STAGE_NULL : Z := 0.
Definition STAGE1_1 : Z := 1.
Definition STAGE1_2 : Z := 2.
Definition STAGE2_1 : Z := 3.
Definition STAGE2_2 : Z := 4.
Definition STAGE3_1 : Z := 5.
Definition STAGE3_2 : Z := 6.
Definition STAGE4_1 : Z := 7.
Definition STAGE4_2 : Z := 8.
Definition STAGE4_3 : Z := 9.
Definition STAGE5 : Z := 10.
Definition STAGE6 : Z := 11.
Definition STAGE8 : Z := 13.
End LevelStage.

Module StageType.
Definition STAGETYPE_ORIGINAL : Z := 0.
Definition STAGETYPE_WOTL : Z := 1.
Definition STAGETYPE_AFTERBIRTH : Z := 2.
Definition STAGETYPE_GREEDMODE : Z := 3.
Definition STAGETYPE_REPENTANCE : Z := 4.
Definition STAGETYPE_REPENTANCE_B : Z := 5.
End StageType.

Module Difficulty.
Definition DIFFICULTY_NORMAL : Z := 0.
Definition DIFFICULTY_HARD : Z := 1.
Definition DIFFICULTY_GREED : Z := 2.
Definition DIFFICULTY_GREEDIER : Z := 3.
End Difficulty.

Module Challenge.
Definition CHALLENGE_NULL : Z := 0.
End Challenge.

Module PlayerType.
Definition PLAYER_ISAAC : Z := 0.
Definition PLAYER_MAGDALENE : Z := 1.
End PlayerType.

(** ** Lua integers

    The mod runs as Lua 5.3.  The variables its code increments
    ([recordingStage], [recordingStageType], [seedsMapSize]) hold integers
    there, which are 64 bits wide, and [+] on integers wraps around; [%] on
    integers is the floored modulo, as [Z.modulo] is. *)

Definition math_maxinteger : Z := 9223372036854775807.
Definition math_mininteger : Z := -9223372036854775808.

Definition wrap (z : Z) : Z :=
  (z - math_mininteger) `mod` 2 ^ 64 + math_mininteger.

(** [a + b] on Lua integers. *)
Definition int_add (a b : Z) : Z := wrap (a + b).
Arguments int_add : simpl never.

(** ** Data model *)

(** The static layout data of a room ([RoomDescriptor.Data] in the host API). *)
Record RoomConfig := mkRoomConfig {
  Shape : Z;
  StageID : Z;
  Variant : Z;
  Subtype : Z;
}.

(** A room descriptor as the extractor reads it; [Data] is [undefined] for a
    room that has not been generated. *)
Record RoomDescriptor := mkRoomDescriptor {
  SafeGridIndex : Z;
  Data : option RoomConfig;
}.

(** [types/RoomData]: the object literal built in [recordFloor]. *)
Record RoomData := mkRoomData {
  shape : Z;
  stageID : Z;
  variant : Z;
  subType : Z;
}.

Global Instance RoomData_eq_dec : EqDecision RoomData.
Proof. solve_decision. Defined.
Global Instance RoomConfig_eq_dec : EqDecision RoomConfig.
Proof. solve_decision. Defined.
Global Instance RoomDescriptor_eq_dec : EqDecision RoomDescriptor.
Proof. solve_decision. Defined.

(** [RoomsMap], [FloorsMap] and [SeedsMap] are Lua tables with string keys.
    A [FloorsMap] is shared by reference between the variable [floorsMap]
    and the entries of [seedsMap], so those tables live in a store
    ([tables]) and are named by their index in it. *)
Abbreviation RoomsMap := (gmap string RoomData).
Abbreviation FloorsMap := (gmap string (gmap string RoomData)).
Abbreviation TableRef := nat.
Abbreviation SeedsMap := (gmap string nat).

(** What [jsonEncode(seedsMap)] serialises: the seeds map with every
    reference followed. *)
Abbreviation Dataset := (gmap string (gmap string (gmap string RoomData))).

Record Mod := mkMod {
  Name : string;
  ApiVersion : Z;
}.

(** The part of the game the callbacks query. *)
Record Host := mkHost {
  startSeedString : string;        (* getStartSeedString() *)
  rooms : list RoomDescriptor;     (* getRooms() *)
  stage : Z;                       (* getStage() *)
  stageType : Z;                   (* getStageType() *)
  setSeed : bool;                  (* onSetSeed() *)
  difficulty : Z;                  (* Game().Difficulty *)
  challenge : Z;                   (* Isaac.GetChallenge() *)
  character : Z;                   (* Isaac.GetPlayer().GetPlayerType() *)
  preventAllCurses : bool;         (* HasSeedEffect(SEED_PREVENT_ALL_CURSES) *)
}.

(** Commands issued to the host, in the order they are issued. *)
Inductive Command :=
| DebugString (msg : string)
| ExecuteCommand (cmd : string)
| GoToStage (stage stageType : Z)
| AddSeedEffectPreventAllCurses
| SaveData (data : Dataset).

Global Instance Command_eq_dec : EqDecision Command.
Proof. solve_decision. Defined.

(** The module-level variables, the table store and the command log. *)
Record State := mkState {
  mod_ : option Mod;
  currentStartSeedString : option string;
  restart : bool;
  recordingStage : Z;
  recordingStageType : Z;
  floorsMap : TableRef;
  seedsMap : SeedsMap;
  seedsMapSize : Z;
  tables : list FloorsMap;
  log : list Command;
}.

Definition MOD_NAME : string := "isaac-floor-recorder".
Definition FINAL_STAGE : Z := LevelStage.STAGE8.
Definition VERBOSE : bool := true.
Definition NUMBER_OF_SEEDS_BEFORE_WRITING_TO_DISK : Z := 100.
Definition STAGES_TO_SKIP : gset Z := {[ 9; 13 ]}.

(** Field updates. *)
Definition set_mod (v : option Mod) (s : State) : State :=
  mkState v (currentStartSeedString s) (restart s) (recordingStage s)
    (recordingStageType s) (floorsMap s) (seedsMap s) (seedsMapSize s)
    (tables s) (log s).
Definition set_currentStartSeedString (v : option string) (s : State) : State :=
  mkState (mod_ s) v (restart s) (recordingStage s)
    (recordingStageType s) (floorsMap s) (seedsMap s) (seedsMapSize s)
    (tables s) (log s).
Definition set_restart (v : bool) (s : State) : State :=
  mkState (mod_ s) (currentStartSeedString s) v (recordingStage s)
    (recordingStageType s) (floorsMap s) (seedsMap s) (seedsMapSize s)
    (tables s) (log s).
Definition set_recordingStage (v : Z) (s : State) : State :=
  mkState (mod_ s) (currentStartSeedString s) (restart s) v
    (recordingStageType s) (floorsMap s) (seedsMap s) (seedsMapSize s)
    (tables s) (log s).
Definition set_recordingStageType (v : Z) (s : State) : State :=
  mkState (mod_ s) (currentStartSeedString s) (restart s) (recordingStage s)
    v (floorsMap s) (seedsMap s) (seedsMapSize s)
    (tables s) (log s).
Definition set_floorsMap (v : TableRef) (s : State) : State :=
  mkState (mod_ s) (currentStartSeedString s) (restart s) (recordingStage s)
    (recordingStageType s) v (seedsMap s) (seedsMapSize s)
    (tables s) (log s).
Definition set_seedsMap (v : SeedsMap) (s : State) : State :=
  mkState (mod_ s) (currentStartSeedString s) (restart s) (recordingStage s)
    (recordingStageType s) (floorsMap s) v (seedsMapSize s)
    (tables s) (log s).
Definition set_seedsMapSize (v : Z) (s : State) : State :=
  mkState (mod_ s) (currentStartSeedString s) (restart s) (recordingStage s)
    (recordingStageType s) (floorsMap s) (seedsMap s) v
    (tables s) (log s).
Definition set_tables (v : list FloorsMap) (s : State) : State :=
  mkState (mod_ s) (currentStartSeedString s) (restart s) (recordingStage s)
    (recordingStageType s) (floorsMap s) (seedsMap s) (seedsMapSize s)
    v (log s).
Definition set_log (v : list Command) (s : State) : State :=
  mkState (mod_ s) (currentStartSeedString s) (restart s) (recordingStage s)
    (recordingStageType s) (floorsMap s) (seedsMap s) (seedsMapSize s)
    (tables s) v.

(** ** The monad

    A computation reads the host, threads the state and either returns or
    throws (Lua's [error]); a throw keeps the state reached so far, as the
    assignments made before it are not undone. *)

Inductive Outcome (A : Type) :=
| Return (a : A)
| Throw (msg : string).
Arguments Return {A} a.
Arguments Throw {A} msg.

Global Instance Outcome_eq_dec {A} `{EqDecision A} : EqDecision (Outcome A).
Proof. solve_decision. Defined.

Definition M (A : Type) : Type := Host → State → Outcome A * State.

Global Instance M_ret : MRet M := λ A a _ s, (Return a, s).
Global Instance M_bind : MBind M := λ A B f m h s,
  match m h s with
  | (Return a, s') => f a h s'
  | (Throw msg, s') => (Throw msg, s')
  end.

Definition gets {A} (f : State → A) : M A := λ _ s, (Return (f s), s).
Definition asks {A} (f : Host → A) : M A := λ h s, (Return (f h), s).
Definition modify (f : State → State) : M () := λ _ s, (Return (), f s).
Definition error {A} (msg : string) : M A := λ _ s, (Throw msg, s).
Definition emit (c : Command) : M () := modify (λ s, set_log (log s ++ [c]) s).
Definition when (b : bool) (m : M ()) : M () := if b then m else mret ().

(** The double-quote character, for the one message that contains it. *)
Definition dquote : string := String (Ascii.ascii_of_nat 34) EmptyString.

(** Lua's [tostring] on an integer. *)
Definition tostring (n : Z) : string := pretty n.

(** ** Table store *)

(** [new LuaTable()] for a floors map. *)
Definition newFloorsMap : M TableRef := λ _ s,
  (Return (length (tables s)), set_tables (tables s ++ [∅]) s).

Definition deref (ts : list FloorsMap) (r : TableRef) : FloorsMap :=
  default ∅ (ts !! r).

(** [table.set(key, value)] on the floors map named by [r]. *)
Definition floorsMap_set (r : TableRef) (key : string) (value : RoomsMap) : M () :=
  modify (λ s, set_tables (<[r := <[key := value]> (deref (tables s) r)]> (tables s)) s).

(** The value [jsonEncode] walks. *)
Definition snapshot (s : State) : Dataset := deref (tables s) <$> seedsMap s.

(** ** Engine and library calls

    A call is recorded in the log.  The engine may run a callback from
    within [goToStage] or [Isaac.ExecuteCommand]; both are only ever called
    as the last statement of a callback, so that callback then runs on the
    state the caller leaves, as it does when delivered as the next event. *)

Definition Isaac_DebugString (msg : string) : M () := emit (DebugString msg).
Definition Isaac_ExecuteCommand (cmd : string) : M () := emit (ExecuteCommand cmd).
Definition goToStage (stage stageType : Z) : M () := emit (GoToStage stage stageType).
Definition seeds_AddSeedEffect_PreventAllCurses : M () := emit AddSeedEffectPreventAllCurses.
Definition mod_SaveData (data : Dataset) : M () := emit (SaveData data).

(** ** The functions of [main.ts] *)

Definition restartOnNextFrame : M () :=
  modify (set_restart true).

Definition writeAllRecordedDataToSaveDatFile : M () :=
  m ← gets mod_;
  match m with
  | None => error "Mod was not initialized."
  | Some _ =>
      data ← gets snapshot;
      mod_SaveData data;;
      when VERBOSE
        (Isaac_DebugString
           ("Recorded data to the " +:+ dquote +:+ "save#.dat" +:+ dquote +:+ " file."))
  end.

Definition recordAllFloorsToSeedMap : M () :=
  startSeedString ← asks startSeedString;
  fm ← gets floorsMap;
  modify (λ s, set_seedsMap (<[startSeedString := fm]> (seedsMap s)) s);;
  modify (λ s, set_seedsMapSize (int_add (seedsMapSize s) 1) s);;
  when VERBOSE
    (Isaac_DebugString ("Recorded seed: " +:+ startSeedString);;
     n ← gets seedsMapSize;
     Isaac_DebugString ("Total seeds: " +:+ tostring n));;
  n ← gets seedsMapSize;
  when (n `mod` NUMBER_OF_SEEDS_BEFORE_WRITING_TO_DISK =? 0)
    writeAllRecordedDataToSaveDatFile.

(** Returns true if we are restarting to the next seed. *)
Definition incrementStage : M bool :=
  modify (λ s, set_recordingStage (int_add (recordingStage s) 1) s);;
  st ← gets recordingStage;
  when (bool_decide (st ∈ STAGES_TO_SKIP))
    (modify (λ s, set_recordingStage (int_add (recordingStage s) 1) s));;
  st ← gets recordingStage;
  if st >? FINAL_STAGE then
    modify (set_recordingStage LevelStage.STAGE1_1);;
    recordAllFloorsToSeedMap;;
    restartOnNextFrame;;
    mret true
  else
    mret false.

Definition getMaxStageType (stage : Z) : Z :=
  if (stage =? 7) || (stage =? 8) then StageType.STAGETYPE_REPENTANCE
  else if stage =? 9 then StageType.STAGETYPE_ORIGINAL
  else if (stage =? 10) || (stage =? 11) then StageType.STAGETYPE_WOTL
  else if stage =? 12 then StageType.STAGETYPE_ORIGINAL
  else if stage =? 13 then StageType.STAGETYPE_WOTL
  else StageType.STAGETYPE_REPENTANCE_B.

(** Returns true if we are restarting to the next seed. *)
Definition incrementStageType : M bool :=
  modify (λ s, set_recordingStageType (int_add (recordingStageType s) 1) s);;
  ty ← gets recordingStageType;
  when (ty =? StageType.STAGETYPE_GREEDMODE)
    (modify (λ s, set_recordingStageType (int_add (recordingStageType s) 1) s));;
  ty ← gets recordingStageType;
  st ← gets recordingStage;
  if ty >? getMaxStageType st then
    modify (set_recordingStageType StageType.STAGETYPE_ORIGINAL);;
    incrementStage
  else
    mret false.

Definition moveToNextFloor : M () :=
  done ← incrementStageType;
  if done : bool then mret ()
  else
    when VERBOSE
      (st ← gets recordingStage;
       ty ← gets recordingStageType;
       Isaac_DebugString ("Going to stage: " +:+ tostring st +:+ "." +:+ tostring ty));;
    st ← gets recordingStage;
    ty ← gets recordingStageType;
    goToStage st ty.

(** The loop of [recordFloor]: one [roomsMap.set] per descriptor that has
    layout data, in iteration order. *)
Fixpoint recordRooms (descs : list RoomDescriptor) (roomsMap : RoomsMap) : RoomsMap :=
  match descs with
  | [] => roomsMap
  | roomDesc :: rest =>
      match Data roomDesc with
      | None => recordRooms rest roomsMap
      | Some data =>
          recordRooms rest
            (<[tostring (SafeGridIndex roomDesc) :=
                 {| shape := Shape data;
                    stageID := StageID data;
                    variant := Variant data;
                    subType := Subtype data |}]> roomsMap)
      end
  end.

Definition floorsMapIndex (stage stageType : Z) : string :=
  tostring stage +:+ "." +:+ tostring stageType.

Definition recordFloor : M () :=
  descs ← asks rooms;
  let roomsMap := recordRooms descs ∅ in
  st ← gets recordingStage;
  ty ← gets recordingStageType;
  fm ← gets floorsMap;
  floorsMap_set fm (floorsMapIndex st ty) roomsMap.

(** [MC_POST_NEW_LEVEL] *)
Definition postNewLevel : M () :=
  when VERBOSE
    (st ← asks stage;
     ty ← asks stageType;
     Isaac_DebugString ("MC_POST_NEW_LEVEL - " +:+ tostring st +:+ "." +:+ tostring ty));;
  startSeedString ← asks startSeedString;
  cur ← gets currentStartSeedString;
  if bool_decide (Some startSeedString ≠ cur) then
    modify (set_currentStartSeedString (Some startSeedString))
  else
    recordFloor;;
    moveToNextFloor.

Definition validateRun (continued : bool) : M bool :=
  when continued
    (error ("The " +:+ MOD_NAME +:+ " mod will not work when continuing a run."));;
  set ← asks setSeed;
  when set
    (error ("The " +:+ MOD_NAME +:+ " mod will not work on set seeds."));;
  d ← asks difficulty;
  when (negb (d =? Difficulty.DIFFICULTY_NORMAL))
    (error ("The " +:+ MOD_NAME +:+ " mod will not work on non-normal difficulties."));;
  c ← asks challenge;
  when (negb (c =? Challenge.CHALLENGE_NULL))
    (error ("The " +:+ MOD_NAME +:+ " mod will not work on challenges."));;
  p ← asks character;
  when (negb (p =? PlayerType.PLAYER_ISAAC))
    (error ("The " +:+ MOD_NAME +:+ " mod will not work on characters other than Isaac."));;
  has ← asks preventAllCurses;
  if negb has then
    seeds_AddSeedEffect_PreventAllCurses;;
    restartOnNextFrame;;
    Isaac_DebugString "Disabling curses and restarting the run.";;
    mret false
  else
    mret true.

(** [MC_POST_GAME_STARTED] *)
Definition postGameStarted (continued : bool) : M () :=
  when VERBOSE
    (seed ← asks startSeedString;
     Isaac_DebugString ("MC_POST_GAME_STARTED - " +:+ seed));;
  ok ← validateRun continued;
  if ok : bool then
    r ← newFloorsMap;
    modify (set_floorsMap r);;
    st ← gets recordingStage;
    ty ← gets recordingStageType;
    goToStage st ty
  else
    mret ().

(** [MC_POST_RENDER] *)
Definition postRender : M () :=
  r ← gets restart;
  if r : bool then
    modify (set_restart false);;
    Isaac_ExecuteCommand "restart"
  else
    mret ().

(** The state when the module has been loaded: the initialisers of the
    module-level variables; [floorsMap] names the first table of the store. *)
Definition loaded : State :=
  {| mod_ := None;
     currentStartSeedString := None;
     restart := false;
     recordingStage := LevelStage.STAGE1_1;
     recordingStageType := StageType.STAGETYPE_ORIGINAL;
     floorsMap := 0%nat;
     seedsMap := ∅;
     seedsMapSize := 0;
     tables := [∅];
     log := [] |}.

(** [main]: registers the mod; from then on the engine delivers events. *)
Definition main : M () :=
  modify (set_mod (Some {| Name := MOD_NAME; ApiVersion := 1 |})).

(** ** The engine's event loop *)

Inductive Event :=
| MC_POST_RENDER
| MC_POST_GAME_STARTED (continued : bool)
| MC_POST_NEW_LEVEL.

Definition callback (e : Event) : M () :=
  match e with
  | MC_POST_RENDER => postRender
  | MC_POST_GAME_STARTED continued => postGameStarted continued
  | MC_POST_NEW_LEVEL => postNewLevel
  end.

(** The engine catches an error thrown by a callback and goes on with the
    state the callback left. *)
Definition exec {A} (m : M A) (h : Host) (s : State) : State := (m h s).2.
Definition result {A} (m : M A) (h : Host) (s : State) : Outcome A := (m h s).1.

Definition fire (s : State) (ev : Host * Event) : State :=
  exec (callback ev.2) ev.1 s.

Definition run (evs : list (Host * Event)) (s : State) : State :=
  foldl fire s evs.

Definition started (h : Host) : State := exec main h loaded.

(** * Observations and reference definitions

    The cursor as a pair and the advance on it, projections of the log,
    the traversal order the claims speak of, and the concrete hosts and
    states used as examples. *)

Definition nextStageType (ty : Z) : Z :=
  if int_add ty 1 =? StageType.STAGETYPE_GREEDMODE
  then int_add (int_add ty 1) 1 else int_add ty 1.

Definition nextStage (st : Z) : Z :=
  if bool_decide (int_add st 1 ∈ STAGES_TO_SKIP)
  then int_add (int_add st 1) 1 else int_add st 1.

Definition cursor (s : State) : Z * Z := (recordingStage s, recordingStageType s).

Definition advanceCursor (c : Z * Z) : Z * Z :=
  if nextStageType c.2 >? getMaxStageType c.1 then
    if nextStage c.1 >? FINAL_STAGE then
      (LevelStage.STAGE1_1, StageType.STAGETYPE_ORIGINAL)
    else (nextStage c.1, StageType.STAGETYPE_ORIGINAL)
  else (c.1, nextStageType c.2).

Definition completes (c : Z * Z) : bool :=
  (nextStageType c.2 >? getMaxStageType c.1) && (nextStage c.1 >? FINAL_STAGE).

Definition advances (hs : list Host) (s : State) : State :=
  foldl (λ s h, exec incrementStageType h s) s hs.

Definition valid_cursor (c : Z * Z) : Prop :=
  (LevelStage.STAGE1_1 ≤ c.1 ≤ FINAL_STAGE) ∧
  (c.1 ∉ STAGES_TO_SKIP) ∧
  (StageType.STAGETYPE_ORIGINAL ≤ c.2 ≤ getMaxStageType c.1) ∧
  c.2 ≠ StageType.STAGETYPE_GREEDMODE.

Definition arrival_message (h : Host) : Command :=
  DebugString ("MC_POST_NEW_LEVEL - " +:+ tostring (stage h) +:+ "." +:+ tostring (stageType h)).

Definition ineligible_message (continued : bool) (h : Host) : option string :=
  if continued then
    Some ("The " +:+ MOD_NAME +:+ " mod will not work when continuing a run.")
  else if setSeed h then
    Some ("The " +:+ MOD_NAME +:+ " mod will not work on set seeds.")
  else if negb (difficulty h =? Difficulty.DIFFICULTY_NORMAL) then
    Some ("The " +:+ MOD_NAME +:+ " mod will not work on non-normal difficulties.")
  else if negb (challenge h =? Challenge.CHALLENGE_NULL) then
    Some ("The " +:+ MOD_NAME +:+ " mod will not work on challenges.")
  else if negb (character h =? PlayerType.PLAYER_ISAAC) then
    Some ("The " +:+ MOD_NAME +:+ " mod will not work on characters other than Isaac.")
  else None.

Definition start_message (h : Host) : Command :=
  DebugString ("MC_POST_GAME_STARTED - " +:+ startSeedString h).

Definition loads (l : list Command) : list (Z * Z) :=
  omap (λ c, match c with GoToStage st ty => Some (st, ty) | _ => None end) l.

Definition saves (l : list Command) : list Dataset :=
  omap (λ c, match c with SaveData d => Some d | _ => None end) l.

Definition commands (l : list Command) : list string :=
  omap (λ c, match c with ExecuteCommand cmd => Some cmd | _ => None end) l.

Definition sequencer_ok (s : State) : Prop :=
  valid_cursor (cursor s) ∧ Forall valid_cursor (loads (log s)).

Definition multiple_of_N (n : Z) : bool :=
  (0 <? n) && (n `mod` NUMBER_OF_SEEDS_BEFORE_WRITING_TO_DISK =? 0).

(** The event is a floor arrival on the seed [s] remembers: the arrivals
    on which [postNewLevel] goes on to record the floor. *)
Definition records_floor (s : State) (h : Host) (e : Event) : bool :=
  match e with
  | MC_POST_NEW_LEVEL => bool_decide (currentStartSeedString s = Some (startSeedString h))
  | _ => false
  end.

(** The event completes a seed: it is the recorded floor arrival on the
    cursor from which the advance wraps past the final stage. *)
Definition fold_completed (s : State) (h : Host) (e : Event) : bool :=
  records_floor s h e && completes (cursor s).

(** The number of seeds a sequence of events completes, from [s] on. *)
Fixpoint folds (evs : list (Host * Event)) (s : State) : nat :=
  match evs with
  | [] => 0
  | ev :: evs' =>
      ((if fold_completed s ev.1 ev.2 then 1 else 0) + folds evs' (fire s ev))%nat
  end.

(** The five structural conditions of [validateRun], negated. *)
Definition eligible (continued : bool) (h : Host) : Prop :=
  continued = false ∧
  setSeed h = false ∧
  difficulty h = Difficulty.DIFFICULTY_NORMAL ∧
  challenge h = Challenge.CHALLENGE_NULL ∧
  character h = PlayerType.PLAYER_ISAAC.


(** A concrete eligible host with curses suppressed, on the given seed and
    with the given rooms. *)
Definition sample_host (seed : string) (descs : list RoomDescriptor) : Host :=
  {| startSeedString := seed;
     rooms := descs;
     stage := 1;
     stageType := 0;
     setSeed := false;
     difficulty := Difficulty.DIFFICULTY_NORMAL;
     challenge := Challenge.CHALLENGE_NULL;
     character := PlayerType.PLAYER_ISAAC;
     preventAllCurses := true |}.

Definition sample_rooms : list RoomDescriptor :=
  [ {| SafeGridIndex := 84; Data := Some {| Shape := 1; StageID := 1; Variant := 2; Subtype := 0 |} |};
    {| SafeGridIndex := 85; Data := None |};
    {| SafeGridIndex := 71; Data := Some {| Shape := 4; StageID := 1; Variant := 310; Subtype := 1 |} |} ].

(** A run on seed A that is left after its first floor for a run on seed B:
    the state in which the second run's start event arrives. *)
Definition interrupted_run : State :=
  run [ (sample_host "A" sample_rooms, MC_POST_NEW_LEVEL);
        (sample_host "A" sample_rooms, MC_POST_GAME_STARTED false);
        (sample_host "A" sample_rooms, MC_POST_NEW_LEVEL);
        (sample_host "B" sample_rooms, MC_POST_NEW_LEVEL) ]
      (started (sample_host "A" sample_rooms)).

Definition other_rooms : list RoomDescriptor :=
  [ {| SafeGridIndex := 60; Data := Some {| Shape := 8; StageID := 2; Variant := 17; Subtype := 0 |} |} ].

(** One full pass over seed A: the game-start event and the 43 floor
    arrivals that follow it. *)
Definition full_pass (descs : list RoomDescriptor) : list (Host * Event) :=
  (sample_host "A" descs, MC_POST_GAME_STARTED false) ::
  replicate 43 (sample_host "A" descs, MC_POST_NEW_LEVEL).

(** Seed A has been completed once, and a second pass over the same seed
    is one floor arrival away from completing. *)
Definition before_second_fold : State :=
  run ((sample_host "A" sample_rooms, MC_POST_NEW_LEVEL) ::
       full_pass sample_rooms ++
       (sample_host "A" other_rooms, MC_POST_GAME_STARTED false) ::
       replicate 42 (sample_host "A" other_rooms, MC_POST_NEW_LEVEL))
      (started (sample_host "A" sample_rooms)).

(** The stages of one seed's traversal, in order: every stage from the
    first to the final one that is not skipped. *)
Definition stages_in_order : list Z :=
  filter (λ st, st ∉ STAGES_TO_SKIP) (seqZ LevelStage.STAGE1_1 FINAL_STAGE).

(** The variants that apply to a stage: from the base variant up to the
    stage's maximum, without the Greed-mode ordinal. *)
Definition variants_of (st : Z) : list Z :=
  filter (λ ty, ty ≠ StageType.STAGETYPE_GREEDMODE ∧ ty ≤ getMaxStageType st)
    (seqZ StageType.STAGETYPE_ORIGINAL (StageType.STAGETYPE_REPENTANCE_B + 1)).

(** Every non-skipped stage, in increasing order, with each of its variants. *)
Definition full_traversal : list (Z * Z) :=
  st ← stages_in_order; (λ ty, (st, ty)) <$> variants_of st.

(** The object literal [recordFloor] stores for a room with layout data. *)
Definition roomData_of (data : RoomConfig) : RoomData :=
  {| shape := Shape data;
     stageID := StageID data;
     variant := Variant data;
     subType := Subtype data |}.

Definition has_data (d : RoomDescriptor) : Prop := is_Some (Data d).

(** The entry the loop of [recordFloor] leaves under key [k]: the one of the
    last descriptor with layout data whose position key is [k]. *)
Fixpoint last_with_key (k : string) (descs : list RoomDescriptor) : option RoomData :=
  match descs with
  | [] => None
  | d :: rest =>
      match last_with_key k rest with
      | Some x => Some x
      | None =>
          if decide (tostring (SafeGridIndex d) = k) then roomData_of <$> Data d else None
      end
  end.

(** Five descriptors, one without layout data, two sharing a grid index. *)
Definition colliding_rooms : list RoomDescriptor :=
  [ {| SafeGridIndex := 84; Data := Some {| Shape := 1; StageID := 1; Variant := 2; Subtype := 0 |} |};
    {| SafeGridIndex := 85; Data := None |};
    {| SafeGridIndex := 71; Data := Some {| Shape := 4; StageID := 1; Variant := 310; Subtype := 1 |} |};
    {| SafeGridIndex := 84; Data := Some {| Shape := 8; StageID := 27; Variant := 5; Subtype := 0 |} |};
    {| SafeGridIndex := 97; Data := Some {| Shape := 1; StageID := 1; Variant := 9; Subtype := 0 |} |} ].

(** Repeats [incrementStageType] until it returns true; gives the cursors
    visited, in order, and the state reached.  [None] when the fuel runs out
    or a call throws. *)
Fixpoint traverse (fuel : nat) (h : Host) (s : State) : option (list (Z * Z) * State) :=
  match fuel with
  | O => None
  | S fuel' =>
      match incrementStageType h s with
      | (Return true, s') => Some ([cursor s], s')
      | (Return false, s') =>
          match traverse fuel' h s' with
          | Some (cs, s'') => Some (cursor s :: cs, s'')
          | None => None
          end
      | (Throw _, _) => None
      end
  end.

(** The same walk on the cursor alone. *)
Fixpoint cursor_path (fuel : nat) (c : Z * Z) : option (list (Z * Z)) :=
  match fuel with
  | O => None
  | S fuel' =>
      if completes c then Some [c]
      else match cursor_path fuel' (advanceCursor c) with
           | Some cs => Some (c :: cs)
           | None => None
           end
  end.

(** Floor-arrival events, one per host snapshot. *)
Definition arrivals (hs : list Host) : list (Host * Event) :=
  (λ h, (h, MC_POST_NEW_LEVEL)) <$> hs.

(** The floors map after recording, for each cursor of [cs] in turn, the
    rooms the matching host of [hs] shows. *)
Definition record_pass (cs : list (Z * Z)) (hs : list Host)
    (fm : gmap string (gmap string RoomData)) : gmap string (gmap string RoomData) :=
  foldl (λ fm ch, <[floorsMapIndex ch.1.1 ch.1.2 := recordRooms (rooms ch.2) ∅]> fm)
    fm (zip cs hs).

Definition cursor_key (c : Z * Z) : string := floorsMapIndex c.1 c.2.

(** The state in which a run on seed A has seen its first floor arrival. *)
Definition seed_remembered : State :=
  fire (started (sample_host "A" sample_rooms))
    (sample_host "A" sample_rooms, MC_POST_NEW_LEVEL).

(** Every reference held by the variables names a table of the store. *)
Definition store_ok (s : State) : Prop :=
  (floorsMap s < length (tables s))%nat ∧
  ∀ seed r, seedsMap s !! seed = Some r → (r < length (tables s))%nat.

(** The keys a floors map can hold: those of the cursors of a traversal. *)
Definition traversal_keys : gset string :=
  list_to_set (cursor_key <$> full_traversal).

(** The module loaded but [main] not yet run, on the last floor of the
    hundredth seed. *)
Definition unregistered_last_floor : State :=
  set_seedsMapSize 99 (set_recordingStage 12 loaded).

(** Whether a string is free of the separator of [floorsMapIndex]. *)
Fixpoint dot_free (s : string) : bool :=
  match s with
  | EmptyString => true
  | String a s' => negb (Ascii.eqb a (Ascii.ascii_of_nat 46)) && dot_free s'
  end.

(** The cursor is valid and no table of the store has a key outside the
    traversal's. *)
Definition tables_ok (s : State) : Prop :=
  valid_cursor (cursor s) ∧
  Forall (λ t : gmap string (gmap string RoomData), dom t ⊆ traversal_keys) (tables s).

(** The events of one seed as the game delivers them: the arrival on the
    randomly chosen first floor, the game start, the floor arrivals the
    mod's own floor loads cause, and the render tick that follows. *)
Definition seed_cycle (h : Host) (hs : list Host) : list (Host * Event) :=
  (h, MC_POST_NEW_LEVEL) :: (h, MC_POST_GAME_STARTED false) ::
  arrivals hs ++ [(h, MC_POST_RENDER)].

(** A seed's hosts: an eligible run with curses suppressed, and 43 floor
    arrivals on the same seed. *)
Definition good_cycle (c : Host * list Host) : Prop :=
  eligible false c.1 ∧ preventAllCurses c.1 = true ∧
  length c.2 = 43%nat ∧
  Forall (λ h, startSeedString h = startSeedString c.1) c.2.

Definition cycles (cs : list (Host * list Host)) : list (Host * Event) :=
  c ← cs; seed_cycle c.1 c.2.

Definition cycle_seed (c : Host * list Host) : string := startSeedString c.1.

(** The dataset the fold builds from a list of seeds' hosts. *)
Definition fold_cycles (cs : list (Host * list Host))
    (d : gmap string (gmap string (gmap string RoomData)))
    : gmap string (gmap string (gmap string RoomData)) :=
  foldl (λ d c, <[cycle_seed c := record_pass full_traversal c.2 ∅]> d) d cs.

(** Ninety-nine seeds counted, the seed A remembered, and the cursor on the
    last floor. *)
Definition before_write : State :=
  {| mod_ := Some {| Name := MOD_NAME; ApiVersion := 1 |};
     currentStartSeedString := Some "A";
     restart := false;
     recordingStage := 12;
     recordingStageType := 0;
     floorsMap := 0%nat;
     seedsMap := ∅;
     seedsMapSize := 99;
     tables := [∅];
     log := [] |}.

(** * Equations of the functions and the sequencer invariant *)

Lemma wrap_small z : math_mininteger ≤ z ≤ math_maxinteger → wrap z = z.
Proof.
  unfold wrap, math_mininteger, math_maxinteger. intros Hz.
  rewrite Z.mod_small by lia. lia.
Qed.

Lemma wrap_range z : math_mininteger ≤ wrap z ≤ math_maxinteger.
Proof.
  unfold wrap, math_mininteger, math_maxinteger.
  pose proof (Z.mod_pos_bound (z - -9223372036854775808) (2 ^ 64) eq_refl). lia.
Qed.

Lemma int_add_small a b :
  math_mininteger ≤ a + b ≤ math_maxinteger → int_add a b = a + b.
Proof. apply wrap_small. Qed.

Lemma int_add_range a b : math_mininteger ≤ int_add a b ≤ math_maxinteger.
Proof. apply wrap_range. Qed.

Lemma incrementStage_eq h s :
  incrementStage h s =
    if nextStage (recordingStage s) >? FINAL_STAGE then
      (recordAllFloorsToSeedMap;; restartOnNextFrame;; mret true) h
        (set_recordingStage LevelStage.STAGE1_1 s)
    else (Return false, set_recordingStage (nextStage (recordingStage s)) s).
Proof.
  destruct s. unfold nextStage. unfold incrementStage at 1. 
  unfold  when, modify, gets, mbind, M_bind, mret, M_ret. cbn.
  case_bool_decide; cbn.
  - destruct (_ >? _); reflexivity.
  - destruct (_ >? _); reflexivity.
Qed.

Lemma incrementStageType_eq h s :
  incrementStageType h s =
    if nextStageType (recordingStageType s) >? getMaxStageType (recordingStage s) then
      incrementStage h (set_recordingStageType StageType.STAGETYPE_ORIGINAL s)
    else (Return false, set_recordingStageType (nextStageType (recordingStageType s)) s).
Proof.
  destruct s. unfold nextStageType, incrementStageType.
  unfold when, modify, gets, mbind, M_bind, mret, M_ret. cbn.
  destruct (_ =? _); cbn; destruct (_ >? _); reflexivity.
Qed.

Lemma recordAllFloorsToSeedMap_eq h s :
  recordAllFloorsToSeedMap h s =
    let s1 :=
      set_log (log s ++ [DebugString ("Recorded seed: " +:+ startSeedString h);
                         DebugString ("Total seeds: " +:+ tostring (int_add (seedsMapSize s) 1))])
        (set_seedsMapSize (int_add (seedsMapSize s) 1)
           (set_seedsMap (<[startSeedString h := floorsMap s]> (seedsMap s)) s)) in
    if (int_add (seedsMapSize s) 1) `mod` NUMBER_OF_SEEDS_BEFORE_WRITING_TO_DISK =? 0 then
      writeAllRecordedDataToSaveDatFile h s1
    else (Return (), s1).
Proof.
  destruct s. unfold recordAllFloorsToSeedMap, Isaac_DebugString, emit.
  unfold when, modify, gets, asks, mbind, M_bind, mret, M_ret, VERBOSE. cbn.
  rewrite <- ?app_assoc. cbn. destruct (_ =? _); reflexivity.
Qed.

Lemma writeAllRecordedDataToSaveDatFile_eq h s :
  writeAllRecordedDataToSaveDatFile h s =
    match mod_ s with
    | None => (Throw "Mod was not initialized.", s)
    | Some _ =>
        (Return (),
         set_log (log s ++ [SaveData (snapshot s);
                            DebugString ("Recorded data to the " +:+ dquote +:+ "save#.dat"
                                          +:+ dquote +:+ " file.")]) s)
    end.
Proof.
  destruct s as [[m|] ? ? ? ? ? ? ? ? ?]; unfold writeAllRecordedDataToSaveDatFile, mod_SaveData, Isaac_DebugString, emit, error;
  unfold when, modify, gets, asks, mbind, M_bind, mret, M_ret, VERBOSE; cbn; [|reflexivity].
  rewrite <- ?app_assoc. reflexivity.
Qed.

Lemma elem_of_STAGES_TO_SKIP st : st ∈ STAGES_TO_SKIP ↔ st = 9 ∨ st = 13.
Proof. unfold STAGES_TO_SKIP. set_solver. Qed.

Lemma recordAllFloorsToSeedMap_cursor h s :
  cursor (recordAllFloorsToSeedMap h s).2 = cursor s.
Proof.
  rewrite recordAllFloorsToSeedMap_eq. cbv zeta.
  destruct (_ =? _); [|reflexivity].
  rewrite writeAllRecordedDataToSaveDatFile_eq. destruct s as [[m|] ? ? ? ? ? ? ? ? ?]; reflexivity.
Qed.

Lemma incrementStage_cursor h s :
  cursor (incrementStage h s).2 =
    if nextStage (recordingStage s) >? FINAL_STAGE
    then (LevelStage.STAGE1_1, recordingStageType s)
    else (nextStage (recordingStage s), recordingStageType s).
Proof.
  rewrite incrementStage_eq. destruct (_ >? _); [|reflexivity].
  unfold mbind, M_bind, restartOnNextFrame, modify, mret, M_ret.
  pose proof (recordAllFloorsToSeedMap_cursor h (set_recordingStage LevelStage.STAGE1_1 s)) as Hc.
  destruct (recordAllFloorsToSeedMap h _) as [[[]|msg] s']; exact Hc.
Qed.

Lemma incrementStageType_cursor h s :
  cursor (exec incrementStageType h s) = advanceCursor (cursor s).
Proof.
  unfold exec, advanceCursor. rewrite incrementStageType_eq. cbn [cursor fst snd].
  destruct (_ >? _); [|reflexivity].
  rewrite incrementStage_cursor. reflexivity.
Qed.

Ltac unfold_enums :=
  unfold FINAL_STAGE, LevelStage.STAGE1_1, LevelStage.STAGE8,
    StageType.STAGETYPE_ORIGINAL, StageType.STAGETYPE_GREEDMODE,
    StageType.STAGETYPE_REPENTANCE, StageType.STAGETYPE_REPENTANCE_B,
    StageType.STAGETYPE_WOTL, NUMBER_OF_SEEDS_BEFORE_WRITING_TO_DISK in *.

Lemma getMaxStageType_le st : getMaxStageType st ≤ StageType.STAGETYPE_REPENTANCE_B.
Proof.
  unfold getMaxStageType. unfold_enums.
  repeat match goal with |- context [?a =? ?b] => destruct (Z.eqb_spec a b) end;
    cbn [orb]; lia.
Qed.

Lemma valid_cursor_iff c : valid_cursor c ↔ c ∈ full_traversal.
Proof.
  destruct c as [st ty]. unfold valid_cursor, full_traversal, stages_in_order, variants_of.
  cbn [fst snd]. rewrite list_elem_of_bind.
  pose proof (getMaxStageType_le st) as Hmax. revert Hmax. unfold_enums. intros Hmax.
  split.
  - intros (Hst & Hskip & Hty & Hg). exists st. split.
    + apply list_elem_of_fmap. exists ty. split; [done|].
      apply list_elem_of_filter. split; [split; [done|lia]|]. apply elem_of_seqZ. lia.
    + apply list_elem_of_filter. split; [done|]. apply elem_of_seqZ. lia.
  - intros (st' & (ty' & [= <- <-] & Hty)%list_elem_of_fmap & Hst).
    apply list_elem_of_filter in Hty as [[Hg Hle] Hty%elem_of_seqZ].
    apply list_elem_of_filter in Hst as [Hskip Hst%elem_of_seqZ].
    repeat split; try done; lia.
Qed.

Lemma full_traversal_closed :
  Forall (λ c, advanceCursor c ∈ full_traversal) full_traversal.
Proof. compute_done. Qed.

Lemma advanceCursor_valid c : valid_cursor c → valid_cursor (advanceCursor c).
Proof.
  rewrite !valid_cursor_iff. intros Hin.
  pose proof full_traversal_closed as Hall. rewrite Forall_forall in Hall. by apply Hall.
Qed.

Lemma advances_cons h hs s :
  advances (h :: hs) s = advances hs (exec incrementStageType h s).
Proof. reflexivity. Qed.

Lemma advances_cursor hs s :
  cursor (advances hs s) = foldl (λ c _, advanceCursor c) (cursor s) hs.
Proof.
  revert s. induction hs as [|h hs IH]; intros s; [reflexivity|].
  rewrite advances_cons, IH, incrementStageType_cursor. reflexivity.
Qed.

Lemma advances_valid hs s : valid_cursor (cursor s) → valid_cursor (cursor (advances hs s)).
Proof.
  revert s. induction hs as [|h hs IH]; intros s Hv; [exact Hv|].
  rewrite advances_cons. apply IH. rewrite incrementStageType_cursor.
  by apply advanceCursor_valid.
Qed.

Ltac state_simpl :=
  unfold cursor, set_mod, set_currentStartSeedString, set_restart, set_recordingStage,
    set_recordingStageType, set_floorsMap, set_seedsMap, set_seedsMapSize, set_tables,
    set_log in *;
  cbn [mod_ currentStartSeedString restart recordingStage recordingStageType floorsMap
       seedsMap seedsMapSize tables log fst snd] in *.

Ltac mcbn :=
  unfold Isaac_DebugString, Isaac_ExecuteCommand, goToStage, mod_SaveData,
    seeds_AddSeedEffect_PreventAllCurses, restartOnNextFrame, newFloorsMap,
    floorsMap_set, when, emit, error, modify, gets, asks,
    mbind, M_bind, mret, M_ret, VERBOSE;
  cbn -[String.app tostring floorsMapIndex].

Lemma moveToNextFloor_eq h s :
  moveToNextFloor h s =
    match incrementStageType h s with
    | (Return true, s') => (Return (), s')
    | (Return false, s') =>
        (Return (),
         set_log (log s' ++
                    [DebugString ("Going to stage: " +:+ tostring (recordingStage s') +:+ "."
                                    +:+ tostring (recordingStageType s'));
                     GoToStage (recordingStage s') (recordingStageType s')]) s')
    | (Throw msg, s') => (Throw msg, s')
    end.
Proof.
  unfold moveToNextFloor. unfold mbind at 1. unfold M_bind.
  destruct (incrementStageType h s) as [[[]|msg] s']; try reflexivity.
  destruct s'. mcbn. rewrite <- ?app_assoc. reflexivity.
Qed.

Lemma recordFloor_eq h s :
  recordFloor h s =
    (Return (),
     set_tables
       (<[floorsMap s :=
            <[floorsMapIndex (recordingStage s) (recordingStageType s) :=
                recordRooms (rooms h) ∅]> (deref (tables s) (floorsMap s))]> (tables s)) s).
Proof. destruct s. reflexivity. Qed.

Lemma postNewLevel_eq h s :
  postNewLevel h s =
    let s0 := set_log (log s ++ [arrival_message h]) s in
    if bool_decide (Some (startSeedString h) ≠ currentStartSeedString s) then
      (Return (), set_currentStartSeedString (Some (startSeedString h)) s0)
    else
      moveToNextFloor h (recordFloor h s0).2.
Proof.
  destruct s. unfold postNewLevel, arrival_message. mcbn.
  destruct (bool_decide _); reflexivity.
Qed.

Lemma postRender_eq h s :
  postRender h s =
    if restart s then
      (Return (), set_log (log s ++ [ExecuteCommand "restart"]) (set_restart false s))
    else (Return (), s).
Proof. destruct s as [? ? [] ? ? ? ? ? ? ?]; reflexivity. Qed.

Lemma validateRun_eq continued h s :
  validateRun continued h s =
    match ineligible_message continued h with
    | Some msg => (Throw msg, s)
    | None =>
        if preventAllCurses h then (Return true, s)
        else
          (Return false,
           set_log (log s ++ [AddSeedEffectPreventAllCurses;
                              DebugString "Disabling curses and restarting the run."])
             (set_restart true s))
    end.
Proof.
  destruct s, h as [? ? ? ? set d c p has]. unfold validateRun, ineligible_message. mcbn.
  destruct continued; [reflexivity|]. mcbn.
  destruct set; [reflexivity|]. mcbn.
  destruct (d =? _); [|reflexivity]. mcbn.
  destruct (c =? _); [|reflexivity]. mcbn.
  destruct (p =? _); [|reflexivity]. mcbn.
  destruct has; mcbn; [reflexivity|]. rewrite <- ?app_assoc. reflexivity.
Qed.

Lemma postGameStarted_eq continued h s :
  postGameStarted continued h s =
    let s0 := set_log (log s ++ [start_message h]) s in
    match validateRun continued h s0 with
    | (Return true, s1) =>
        (Return (),
         set_log (log s1 ++ [GoToStage (recordingStage s1) (recordingStageType s1)])
           (set_floorsMap (length (tables s1)) (set_tables (tables s1 ++ [∅]) s1)))
    | (Return false, s1) => (Return (), s1)
    | (Throw msg, s1) => (Throw msg, s1)
    end.
Proof.
  unfold postGameStarted, start_message. unfold mbind at 1. unfold M_bind at 1.
  unfold when, VERBOSE. unfold mbind at 1. unfold M_bind at 1. 
  unfold asks at 1. unfold mbind at 1. unfold M_bind at 1.
  unfold Isaac_DebugString, emit, modify. cbv zeta.
  destruct (validateRun continued h _) as [[[]|msg] s1]; reflexivity.
Qed.

Lemma loads_app l1 l2 : loads (l1 ++ l2) = loads l1 ++ loads l2.
Proof. apply omap_app. Qed.

Lemma saves_app l1 l2 : saves (l1 ++ l2) = saves l1 ++ saves l2.
Proof. apply omap_app. Qed.

Lemma commands_app l1 l2 : commands (l1 ++ l2) = commands l1 ++ commands l2.
Proof. apply omap_app. Qed.

(** What the fold appends to the log. *)
Lemma recordAllFloorsToSeedMap_log h s :
  log (recordAllFloorsToSeedMap h s).2 =
    log s ++
      [DebugString ("Recorded seed: " +:+ startSeedString h);
       DebugString ("Total seeds: " +:+ tostring (int_add (seedsMapSize s) 1))] ++
      (if ((int_add (seedsMapSize s) 1) `mod` NUMBER_OF_SEEDS_BEFORE_WRITING_TO_DISK =? 0)
          && bool_decide (is_Some (mod_ s))
       then [SaveData (<[startSeedString h := deref (tables s) (floorsMap s)]> (snapshot s));
             DebugString ("Recorded data to the " +:+ dquote +:+ "save#.dat"
                           +:+ dquote +:+ " file.")]
       else []).
Proof.
  rewrite recordAllFloorsToSeedMap_eq. cbv zeta.
  destruct (_ =? _); cbn [andb]; [|done].
  rewrite writeAllRecordedDataToSaveDatFile_eq.
  destruct s as [[m|] ? ? ? ? ? ? ? ? ?]; cbn -[String.app tostring]; [|done].
  rewrite <- ?app_assoc. unfold snapshot. cbn -[String.app tostring].
  by rewrite fmap_insert.
Qed.

Lemma incrementStageType_log h s :
  log (incrementStageType h s).2 =
    if completes (cursor s)
    then log (recordAllFloorsToSeedMap h s).2
    else log s.
Proof.
  rewrite incrementStageType_eq. unfold completes. cbn [cursor fst snd].
  destruct (_ >? _); cbn [andb]; [|by destruct s].
  rewrite incrementStage_eq. cbn [recordingStage set_recordingStageType].
  destruct (_ >? _); [|by destruct s].
  unfold mbind, M_bind, restartOnNextFrame, modify, mret, M_ret.
  rewrite !recordAllFloorsToSeedMap_eq. cbv zeta.
  cbn [seedsMapSize set_recordingStage set_recordingStageType].
  destruct (_ =? _); [|by destruct s].
  rewrite !writeAllRecordedDataToSaveDatFile_eq.
  by destruct s as [[m|] ? ? ? ? ? ? ? ? ?].
Qed.

Lemma loads_incrementStageType h s :
  loads (log (incrementStageType h s).2) = loads (log s).
Proof.
  rewrite incrementStageType_log. destruct (completes _); [|reflexivity].
  rewrite recordAllFloorsToSeedMap_log, !loads_app.
  destruct (_ && _); cbn; by rewrite ?app_nil_r.
Qed.

Lemma valid_cursor_first :
  valid_cursor (LevelStage.STAGE1_1, StageType.STAGETYPE_ORIGINAL).
Proof.
  unfold valid_cursor. cbn. rewrite elem_of_STAGES_TO_SKIP. unfold_enums. lia.
Qed.

Lemma moveToNextFloor_sequencer_ok h s :
  sequencer_ok s → sequencer_ok (moveToNextFloor h s).2.
Proof.
  intros [Hc Hl]. rewrite moveToNextFloor_eq.
  pose proof (incrementStageType_cursor h s) as Hcur.
  pose proof (loads_incrementStageType h s) as Hlog.
  unfold exec in Hcur.
  assert (valid_cursor (cursor (incrementStageType h s).2)) as Hv.
  { rewrite Hcur. by apply advanceCursor_valid. }
  destruct (incrementStageType h s) as [[[]|msg] s']; cbn [snd] in *;
    try (split; [done | by rewrite Hlog]).
  split; [by destruct s'|].
  destruct s'. cbn [log set_log] in *. rewrite loads_app, Hlog. cbn.
  apply Forall_app. split; [done|]. by apply Forall_singleton.
Qed.

Lemma fire_sequencer_ok s ev : sequencer_ok s → sequencer_ok (fire s ev).
Proof.
  destruct ev as [h [|continued|]]; unfold fire, exec; cbn [fst snd callback]; intros Hok.
  - rewrite postRender_eq. destruct Hok as [Hc Hl].
    destruct s as [? ? [] ? ? ? ? ? ? ?]; cbn [restart snd]; [|done].
    split; [done|]. cbn [log set_log set_restart]. rewrite loads_app. cbn.
    by rewrite ?app_nil_r.
  - rewrite postGameStarted_eq. cbv zeta. rewrite validateRun_eq.
    destruct Hok as [Hc Hl].
    destruct (ineligible_message continued h).
    { split; [by destruct s|]. destruct s. cbn. rewrite loads_app. cbn. by rewrite ?app_nil_r. }
    destruct (preventAllCurses h).
    + split; [by destruct s|]. destruct s. cbn in *. rewrite !loads_app. cbn.
      rewrite ?app_nil_r. apply Forall_app. split; [done|]. by apply Forall_singleton.
    + split; [by destruct s|]. destruct s. cbn in *. rewrite !loads_app. cbn.
      by rewrite ?app_nil_r.
  - rewrite postNewLevel_eq. cbv zeta.
    destruct (bool_decide _).
    + destruct Hok as [Hc Hl].
      split; [by destruct s|]. destruct s. cbn in *. rewrite loads_app. cbn.
      by rewrite ?app_nil_r.
    + apply moveToNextFloor_sequencer_ok. rewrite recordFloor_eq.
      destruct Hok as [Hc Hl].
      split; [by destruct s|]. destruct s. cbn in *. rewrite loads_app. cbn.
      by rewrite ?app_nil_r.
Qed.

Lemma run_sequencer_ok evs s : sequencer_ok s → sequencer_ok (run evs s).
Proof.
  revert s. induction evs as [|ev evs IH]; intros s Hok; [done|].
  cbn. apply IH. by apply fire_sequencer_ok.
Qed.

Lemma started_sequencer_ok h : sequencer_ok (started h).
Proof. split; [apply valid_cursor_first | constructor]. Qed.

(** C2: after any number of advance operations from the initial cursor,
    and after any sequence of engine events, the cursor is a valid pair:
    its stage lies between the first and the final stage and is not
    skipped, its variant lies between the base variant and
    [getMaxStageType] of the stage and is not the Greed-mode ordinal; and
    every floor the callbacks ask the host to load is such a pair. *)
Theorem cursor_always_valid (h0 : Host) :
  (∀ hs : list Host,
     let s := advances hs (started h0) in
     valid_cursor (cursor s) ∧ recordingStageType s ≠ 3 ∧
     recordingStage s ≠ 9 ∧ recordingStage s ≠ 13) ∧
  (∀ evs : list (Host * Event),
     let s := run evs (started h0) in
     valid_cursor (cursor s) ∧
     ∀ st ty, GoToStage st ty ∈ log s → valid_cursor (st, ty)).
Proof.
  split.
  - intros hs s.
    assert (valid_cursor (cursor s)) as Hv.
    { apply advances_valid, valid_cursor_first. }
    split; [done|]. destruct Hv as (_ & Hskip & _ & Hg).
    rewrite elem_of_STAGES_TO_SKIP in Hskip. cbn in *. unfold_enums. lia.
  - intros evs s. destruct (run_sequencer_ok evs (started h0) (started_sequencer_ok h0)) as [Hc Hl].
    split; [done|]. intros st ty Hin.
    rewrite Forall_forall in Hl. apply Hl. unfold loads.
    apply list_elem_of_omap. exists (GoToStage st ty). done.
Qed.

Lemma advances_cursor_iter hs s :
  cursor (advances hs s) = Nat.iter (length hs) advanceCursor (cursor s).
Proof.
  rewrite advances_cursor. generalize (cursor s) as c.
  induction hs as [|h hs IH]; intros c; [reflexivity|].
  cbn [foldl length]. rewrite IH. by rewrite <- Nat.iter_succ_r. 
Qed.

Lemma valid_cursor_ceilings c :
  valid_cursor c →
  ((c.1 = 7 ∨ c.1 = 8) → c.2 ≤ StageType.STAGETYPE_REPENTANCE) ∧
  (c.1 = 12 → c.2 = StageType.STAGETYPE_ORIGINAL).
Proof.
  destruct c as [st ty]. intros (_ & _ & Hty & _). cbn [fst snd] in *.
  split.
  - intros [-> | ->]; exact (proj2 Hty).
  - intros ->. change (0 ≤ ty ≤ 0) in Hty. unfold_enums. lia.
Qed.

Lemma advanceCursor_last :
  advanceCursor (12, StageType.STAGETYPE_ORIGINAL) =
    (LevelStage.STAGE1_1, StageType.STAGETYPE_ORIGINAL).
Proof. compute_done. Qed.

(** C8: on stages 7 and 8 the variant never exceeds [STAGETYPE_REPENTANCE],
    and the cursors (7, REPENTANCE) and (8, REPENTANCE) are reached (after
    33 and 37 advances); on stage 12 the variant is the base one, stage 12
    is reached (after 42 advances), and the next advance leaves it. *)
Theorem variant_ceilings (h0 : Host) (hs : list Host) :
  let s := advances hs (started h0) in
  ((recordingStage s = 7 ∨ recordingStage s = 8) →
     recordingStageType s ≤ StageType.STAGETYPE_REPENTANCE) ∧
  (length hs = 33%nat → cursor s = (7, StageType.STAGETYPE_REPENTANCE)) ∧
  (length hs = 37%nat → cursor s = (8, StageType.STAGETYPE_REPENTANCE)) ∧
  (recordingStage s = 12 →
     recordingStageType s = StageType.STAGETYPE_ORIGINAL ∧
     ∀ h, recordingStage (exec incrementStageType h s) ≠ 12) ∧
  (length hs = 42%nat → cursor s = (12, StageType.STAGETYPE_ORIGINAL)).
Proof.
  cbv zeta. remember (advances hs (started h0)) as s eqn:Hs.
  assert (valid_cursor (cursor s)) as Hv.
  { rewrite Hs. apply advances_valid, valid_cursor_first. }
  destruct (valid_cursor_ceilings _ Hv) as [H78 H12]. cbn [cursor fst snd] in H78, H12.
  assert (∀ n, length hs = n → cursor s = Nat.iter n advanceCursor (1, 0)) as Hiter.
  { intros n <-. rewrite Hs. apply advances_cursor_iter. }
  split; [exact H78|]. split; [|split; [|split]].
  - intros Hn. rewrite (Hiter _ Hn). compute_done.
  - intros Hn. rewrite (Hiter _ Hn). compute_done.
  - intros Hst. pose proof (H12 Hst) as Hz. split; [exact Hz|]. intros h.
    pose proof (incrementStageType_cursor h s) as Hc.
    unfold cursor at 2 in Hc. rewrite Hst, Hz, advanceCursor_last in Hc.
    injection Hc as -> _. done.
  - intros Hn. rewrite (Hiter _ Hn). compute_done.
Qed.

(** The fold, when the mod has been registered: one explicit state. *)
Lemma recordAllFloorsToSeedMap_registered h s :
  is_Some (mod_ s) →
  recordAllFloorsToSeedMap h s =
    (Return (),
     set_log
       (log s ++
          [DebugString ("Recorded seed: " +:+ startSeedString h);
           DebugString ("Total seeds: " +:+ tostring (int_add (seedsMapSize s) 1))] ++
          (if (int_add (seedsMapSize s) 1) `mod` NUMBER_OF_SEEDS_BEFORE_WRITING_TO_DISK =? 0
           then [SaveData (<[startSeedString h := deref (tables s) (floorsMap s)]> (snapshot s));
                 DebugString ("Recorded data to the " +:+ dquote +:+ "save#.dat"
                               +:+ dquote +:+ " file.")]
           else []))
       (set_seedsMapSize (int_add (seedsMapSize s) 1)
          (set_seedsMap (<[startSeedString h := floorsMap s]> (seedsMap s)) s))).
Proof.
  intros [m Hm]. rewrite recordAllFloorsToSeedMap_eq. cbv zeta.
  destruct (_ =? _).
  - rewrite writeAllRecordedDataToSaveDatFile_eq.
    destruct s; cbn -[String.app tostring] in *. subst.
    rewrite <- ?app_assoc. unfold snapshot. cbn -[String.app tostring].
    by rewrite fmap_insert.
  - destruct s; cbn -[String.app tostring]. by rewrite ?app_nil_r.
Qed.

Lemma incrementStageType_continues h s :
  completes (cursor s) = false →
  incrementStageType h s =
    (Return false,
     set_recordingStage (advanceCursor (cursor s)).1
       (set_recordingStageType (advanceCursor (cursor s)).2 s)).
Proof.
  unfold completes, advanceCursor. cbn [cursor fst snd]. intros Hc.
  rewrite incrementStageType_eq. destruct (_ >? _); cbn [andb] in Hc.
  - rewrite incrementStage_eq. cbn [recordingStage set_recordingStageType].
    rewrite Hc. by destruct s.
  - by destruct s.
Qed.

Lemma incrementStageType_completes h s :
  completes (cursor s) = true →
  incrementStageType h s =
    (recordAllFloorsToSeedMap;; restartOnNextFrame;; mret true) h
      (set_recordingStage LevelStage.STAGE1_1
         (set_recordingStageType StageType.STAGETYPE_ORIGINAL s)).
Proof.
  unfold completes. cbn [cursor fst snd]. intros [H1 H2]%andb_prop.
  rewrite incrementStageType_eq, H1, incrementStage_eq.
  cbn [recordingStage set_recordingStageType]. by rewrite H2.
Qed.

Lemma incrementStageType_completes_registered h s :
  completes (cursor s) = true → is_Some (mod_ s) →
  incrementStageType h s =
    (Return true,
     set_restart true
       (recordAllFloorsToSeedMap h
          (set_recordingStage LevelStage.STAGE1_1
             (set_recordingStageType StageType.STAGETYPE_ORIGINAL s))).2).
Proof.
  intros Hc Hm. rewrite incrementStageType_completes by done.
  unfold mbind, M_bind, restartOnNextFrame, modify, mret, M_ret.
  rewrite recordAllFloorsToSeedMap_registered by (by destruct s).
  reflexivity.
Qed.

Lemma fire_counter h e s :
  is_Some (mod_ s) →
  let s' := fire s (h, e) in
  mod_ s' = mod_ s ∧
  ((seedsMapSize s' = seedsMapSize s ∧ saves (log s') = saves (log s)) ∨
   (seedsMapSize s' = int_add (seedsMapSize s) 1 ∧
    saves (log s') =
      saves (log s) ++
        (if seedsMapSize s' `mod` NUMBER_OF_SEEDS_BEFORE_WRITING_TO_DISK =? 0
         then [snapshot s'] else []))).
Proof.
  intros Hm. destruct e as [|continued|]; unfold fire, exec; cbn [fst snd callback].
  - rewrite postRender_eq. destruct s as [? ? [] ? ? ? ? ? ? ?]; cbn; (split; [done|left]).
    + rewrite saves_app. cbn. by rewrite ?app_nil_r.
    + done.
  - rewrite postGameStarted_eq. cbv zeta. rewrite validateRun_eq.
    destruct (ineligible_message continued h); [|destruct (preventAllCurses h)];
      destruct s; cbn; (split; [done|left]); rewrite !saves_app; cbn;
      by rewrite ?app_nil_r.
  - rewrite postNewLevel_eq. cbv zeta. destruct (bool_decide _).
    { destruct s; cbn; (split; [done|left]); rewrite !saves_app; cbn;
      by rewrite ?app_nil_r. }
    rewrite recordFloor_eq, moveToNextFloor_eq. cbn [snd].
    destruct (completes (cursor s)) eqn:Hc.
    + rewrite incrementStageType_completes_registered by (by destruct s).
      rewrite recordAllFloorsToSeedMap_registered by (by destruct s).
      destruct s; cbn -[String.app tostring Z.modulo]. split; [done|right].
      split; [done|]. rewrite !saves_app. cbn -[String.app tostring Z.modulo].
      rewrite ?app_nil_r. f_equal.
      destruct (_ =? _); [|done]. cbn. unfold snapshot. cbn. by rewrite fmap_insert.
    + rewrite incrementStageType_continues by (by destruct s).
      destruct s; cbn -[String.app tostring]. split; [done|left].
      rewrite !saves_app. cbn. by rewrite ?app_nil_r.
Qed.


(** * The handlers, one event at a time *)

Lemma ineligible_message_None continued h :
  ineligible_message continued h = None ↔ eligible continued h.
Proof.
  unfold ineligible_message, eligible.
  destruct continued; [by intuition|].
  destruct (setSeed h); [by intuition|].
  destruct (Z.eqb_spec (difficulty h) Difficulty.DIFFICULTY_NORMAL); [|by intuition].
  destruct (Z.eqb_spec (challenge h) Challenge.CHALLENGE_NULL); [|by intuition].
  destruct (Z.eqb_spec (character h) PlayerType.PLAYER_ISAAC); by intuition.
Qed.

(** C5: a floor arrival whose seed string differs from the remembered one
    only updates the remembered seed string (and, as [VERBOSE] is set, logs
    the arrival): floors map, table store, dataset, cursor, counter and
    restart flag are unchanged and no floor load is issued. *)
Theorem postNewLevel_new_seed (h : Host) (s : State) :
  Some (startSeedString h) ≠ currentStartSeedString s →
  let s' := exec postNewLevel h s in
  result postNewLevel h s = Return () ∧
  currentStartSeedString s' = Some (startSeedString h) ∧
  floorsMap s' = floorsMap s ∧
  tables s' = tables s ∧
  seedsMap s' = seedsMap s ∧
  snapshot s' = snapshot s ∧
  cursor s' = cursor s ∧
  seedsMapSize s' = seedsMapSize s ∧
  restart s' = restart s ∧
  mod_ s' = mod_ s ∧
  log s' =
    log s ++ [DebugString ("MC_POST_NEW_LEVEL - " +:+ tostring (stage h) +:+ "."
                             +:+ tostring (stageType h))] ∧
  loads (log s') = loads (log s).
Proof.
  intros Hne s'. subst s'. unfold exec, result. rewrite postNewLevel_eq. cbv zeta.
  rewrite bool_decide_eq_true_2 by done.
  destruct s; cbn -[String.app tostring]. repeat split.
  rewrite loads_app. cbn. by rewrite ?app_nil_r.
Qed.

Lemma postNewLevel_new_seed_witness :
  let h := mkHost "B" [mkRoomDescriptor 5 (Some (mkRoomConfig 1 2 3 4))] 1 2 false 0 0 0 true in
  let s := mkState (Some (mkMod MOD_NAME 1)) (Some "A") false 4 2 0%nat ∅ 7 [∅] [] in
  exec postNewLevel h s =
    mkState (Some (mkMod MOD_NAME 1)) (Some "B") false 4 2 0%nat ∅ 7 [∅]
      [DebugString "MC_POST_NEW_LEVEL - 1.2"].
Proof.
  intros h s.
  assert (Some (startSeedString h) ≠ currentStartSeedString s) as Hne by (by vm_compute).
  pose proof (postNewLevel_new_seed h s Hne) as H. cbv zeta in H.
  destruct H as (_ & H1 & H2 & H3 & H4 & _ & H5 & H6 & H7 & H8 & H9 & _).
  destruct (exec postNewLevel h s). cbn in *. injection H5 as -> ->. 
  by subst.
Defined.


Lemma fire_commands h e s :
  e ≠ MC_POST_RENDER → commands (log (fire s (h, e))) = commands (log s).
Proof.
  intros He. destruct e as [|continued|]; [done| |]; unfold fire, exec; cbn [fst snd callback].
  - rewrite postGameStarted_eq. cbv zeta. rewrite validateRun_eq.
    destruct (ineligible_message continued h); [|destruct (preventAllCurses h)];
      destruct s; cbn; rewrite !commands_app; cbn; by rewrite ?app_nil_r.
  - rewrite postNewLevel_eq. cbv zeta. destruct (bool_decide _).
    { destruct s; cbn. rewrite commands_app. cbn. by rewrite ?app_nil_r. }
    rewrite recordFloor_eq, moveToNextFloor_eq. cbn [snd].
    match goal with |- context [incrementStageType h ?s0] =>
      pose proof (incrementStageType_log h s0) as Hlog;
      destruct (incrementStageType h s0) as [[[]|msg] s1] end;
      cbn [snd log set_log] in *; rewrite ?commands_app, Hlog;
      [| |]; (destruct (completes _);
        [rewrite recordAllFloorsToSeedMap_log, !commands_app; destruct (_ && _)|]);
      destruct s; cbn; rewrite ?commands_app; cbn; by rewrite ?app_nil_r.
Qed.


Lemma run_cons ev evs s : run (ev :: evs) s = run evs (fire s ev).
Proof. reflexivity. Qed.

Lemma run_app evs1 evs2 s : run (evs1 ++ evs2) s = run evs2 (run evs1 s).
Proof. apply foldl_app. Qed.


Lemma fire_render h s : fire s (h, MC_POST_RENDER) = exec postRender h s.
Proof. reflexivity. Qed.





(** C10: the run-start handler never moves the cursor; on an eligible run
    with curses suppressed the floor it loads is the one at the current
    cursor, which is the first pair exactly when the cursor is at
    (first stage, base variant); in the mitigation branch the floors map in
    progress is untouched. *)
Theorem postGameStarted_cursor (continued : bool) (h : Host) (s : State) :
  let s' := exec (postGameStarted continued) h s in
  cursor s' = cursor s ∧
  (eligible continued h → preventAllCurses h = true →
     loads (log s') = loads (log s) ++ [cursor s] ∧
     last (log s') = Some (GoToStage (recordingStage s) (recordingStageType s)) ∧
     (last (log s') = Some (GoToStage LevelStage.STAGE1_1 StageType.STAGETYPE_ORIGINAL) ↔
      cursor s = (LevelStage.STAGE1_1, StageType.STAGETYPE_ORIGINAL))) ∧
  (eligible continued h → preventAllCurses h = false →
     floorsMap s' = floorsMap s ∧
     tables s' = tables s ∧
     loads (log s') = loads (log s)).
Proof.
  intros s'. subst s'. unfold exec. rewrite postGameStarted_eq. cbv zeta.
  rewrite validateRun_eq. split; [|split].
  - destruct (ineligible_message continued h); [|destruct (preventAllCurses h)]; by destruct s.
  - intros He%ineligible_message_None Hp. rewrite He, Hp.
    destruct s; cbn -[String.app]. rewrite !loads_app. cbn -[String.app].
    rewrite ?app_nil_r. split; [done|].
    rewrite !last_snoc. split; [done|]. unfold cursor. cbn [recordingStage recordingStageType].
    split; [by intros [= -> ->]|by intros [= -> ->]].
  - intros He%ineligible_message_None Hp. rewrite He, Hp.
    destruct s; cbn -[String.app]. rewrite !loads_app. cbn. by rewrite ?app_nil_r.
Qed.


(** C6, as stated, fails: on an eligible run the handler loads the floor at
    the current cursor, which need not be the first pair.  Here the cursor
    is at (1, 1) when a new eligible run starts. *)
Lemma postGameStarted_loads_first_pair_counterexample :
  let h := sample_host "B" sample_rooms in
  eligible false h ∧ preventAllCurses h = true ∧
  result (postGameStarted false) h interrupted_run = Return () ∧
  last (log (exec (postGameStarted false) h interrupted_run)) = Some (GoToStage 1 1) ∧
  last (log (exec (postGameStarted false) h interrupted_run)) ≠
    Some (GoToStage LevelStage.STAGE1_1 StageType.STAGETYPE_ORIGINAL).
Proof. cbv zeta. compute_done. Qed.

(** C6, amended: the handler throws exactly when one of the five structural
    conditions holds; on an eligible run without curse suppression it adds
    the seed effect, sets the restart flag and returns, with the floors map
    and the store untouched and no floor loaded; otherwise it points
    [floorsMap] at a fresh empty table and loads the floor at the current
    cursor, which is the first pair when the cursor is at
    (first stage, base variant). *)
Theorem postGameStarted_branches (continued : bool) (h : Host) (s : State) :
  let s' := exec (postGameStarted continued) h s in
  let started_msg := DebugString ("MC_POST_GAME_STARTED - " +:+ startSeedString h) in
  ((∃ msg, result (postGameStarted continued) h s = Throw msg) ↔ ¬ eligible continued h) ∧
  (¬ eligible continued h →
     log s' = log s ++ [started_msg] ∧ restart s' = restart s ∧
     floorsMap s' = floorsMap s ∧ tables s' = tables s) ∧
  (eligible continued h → preventAllCurses h = false →
     result (postGameStarted continued) h s = Return () ∧
     log s' = log s ++ [started_msg; AddSeedEffectPreventAllCurses;
                        DebugString "Disabling curses and restarting the run."] ∧
     restart s' = true ∧
     floorsMap s' = floorsMap s ∧ tables s' = tables s) ∧
  (eligible continued h → preventAllCurses h = true →
     result (postGameStarted continued) h s = Return () ∧
     floorsMap s' = length (tables s) ∧
     tables s' = tables s ++ [∅] ∧
     deref (tables s') (floorsMap s') = ∅ ∧
     restart s' = restart s ∧
     log s' = log s ++ [started_msg; GoToStage (recordingStage s) (recordingStageType s)] ∧
     (cursor s = (LevelStage.STAGE1_1, StageType.STAGETYPE_ORIGINAL) →
        last (log s') = Some (GoToStage LevelStage.STAGE1_1 StageType.STAGETYPE_ORIGINAL))).
Proof.
  intros s' started_msg. subst s' started_msg. unfold exec, result.
  rewrite postGameStarted_eq. cbv zeta. rewrite validateRun_eq.
  pose proof (ineligible_message_None continued h) as Hel.
  split; [|split; [|split]].
  - destruct (ineligible_message continued h) as [msg|].
    + split; [|by eauto]. intros _ He%Hel. done.
    + split; [|intros Hn; destruct Hn; by apply Hel].
      destruct (preventAllCurses h); by intros [msg [=]].
  - intros Hn. destruct (ineligible_message continued h) as [msg|].
    + by destruct s.
    + destruct Hn. by apply Hel.
  - intros He%Hel Hp. rewrite He, Hp. destruct s; cbn -[String.app].
    by rewrite <- ?app_assoc.
  - intros He%Hel Hp. rewrite He, Hp. destruct s; cbn -[String.app].
    rewrite <- ?app_assoc. repeat split.
    + unfold deref. by rewrite lookup_app_r, Nat.sub_diag by done.
    + intros [= -> ->]. by rewrite app_assoc, last_snoc.
Qed.

Lemma postGameStarted_branches_witness :
  let h := sample_host "B" sample_rooms in
  eligible false h ∧ preventAllCurses h = true ∧
  log (exec (postGameStarted false) h (started h)) =
    [DebugString "MC_POST_GAME_STARTED - B"; GoToStage 1 0].
Proof.
  intros h.
  assert (eligible false h) as He by (by repeat split).
  assert (preventAllCurses h = true) as Hp by done.
  split; [done|]. split; [done|].
  destruct (postGameStarted_branches false h (started h)) as (_ & _ & _ & H).
  destruct (H He Hp) as (_ & _ & _ & _ & _ & Hlog & _). exact Hlog.
Defined.


(** C4, as stated, fails: completing a seed that is already in the dataset
    replaces its entry and counts it again, without any error. *)
Lemma refold_overwrites_counterexample :
  let h := sample_host "A" other_rooms in
  let s := before_second_fold in
  let s' := exec postNewLevel h s in
  seedsMap s !! "A" = Some 1%nat ∧ seedsMapSize s = 1 ∧
  result postNewLevel h s = Return () ∧
  seedsMap s' !! "A" = Some 2%nat ∧
  snapshot s' !! "A" ≠ snapshot s !! "A" ∧
  seedsMapSize s' = 2 ∧ size (seedsMap s') = 1%nat.
Proof. cbv zeta. compute_done. Qed.

(** C4, amended: the dataset is a keyed table, so a seed string occurs in
    it at most once; the fold binds the host's seed string to the current
    floors map, leaves every other entry alone and adds one to the counter
    (a Lua integer, so with [int_add]);
    for a seed not yet present the dataset grows by one entry; for a seed
    already present the entry is replaced and the fold returns normally. *)
Theorem recordAllFloorsToSeedMap_entry (h : Host) (s : State) :
  let s' := exec recordAllFloorsToSeedMap h s in
  let seed := startSeedString h in
  NoDup (map_to_list (seedsMap s')).*1 ∧
  seedsMap s' !! seed = Some (floorsMap s) ∧
  (∀ k, k ≠ seed → seedsMap s' !! k = seedsMap s !! k) ∧
  seedsMapSize s' = int_add (seedsMapSize s) 1 ∧
  tables s' = tables s ∧
  (seedsMap s !! seed = None → size (seedsMap s') = S (size (seedsMap s))) ∧
  (is_Some (seedsMap s !! seed) →
     size (seedsMap s') = size (seedsMap s) ∧
     (is_Some (mod_ s) → result recordAllFloorsToSeedMap h s = Return ())).
Proof.
  intros s' seed. subst s' seed. unfold exec, result.
  assert (seedsMap (recordAllFloorsToSeedMap h s).2
          = <[startSeedString h := floorsMap s]> (seedsMap s) ∧
          seedsMapSize (recordAllFloorsToSeedMap h s).2 = int_add (seedsMapSize s) 1 ∧
          tables (recordAllFloorsToSeedMap h s).2 = tables s) as (Hmap & Hsize & Htab).
  { rewrite recordAllFloorsToSeedMap_eq. cbv zeta. destruct (_ =? _); [|by destruct s].
    rewrite writeAllRecordedDataToSaveDatFile_eq.
    by destruct s as [[m|] ? ? ? ? ? ? ? ? ?]. }
  rewrite Hmap, Hsize, Htab. split_and!; try done.
  - apply NoDup_fst_map_to_list.
  - apply lookup_insert_eq.
  - intros k Hk. by apply lookup_insert_ne.
  - intros Hnone. by apply map_size_insert_None.
  - intros [r Hr]. split.
    + by apply map_size_insert_Some.
    + intros Hm. by rewrite recordAllFloorsToSeedMap_registered.
Qed.

Lemma recordAllFloorsToSeedMap_entry_witness :
  let h := sample_host "A" other_rooms in
  let s := set_recordingStage 1 before_second_fold in
  is_Some (seedsMap s !! startSeedString h) ∧ is_Some (mod_ s) ∧
  size (seedsMap (exec recordAllFloorsToSeedMap h s)) = 1%nat ∧
  result recordAllFloorsToSeedMap h s = Return ().
Proof.
  intros h s.
  assert (is_Some (seedsMap s !! startSeedString h)) as Hin by (vm_compute; by eexists).
  assert (is_Some (mod_ s)) as Hm by (vm_compute; by eexists).
  split; [done|]. split; [done|].
  destruct (recordAllFloorsToSeedMap_entry h s) as (_ & _ & _ & _ & _ & _ & H).
  destruct (H Hin) as [Hsz Hres]. split; [|by apply Hres].
  rewrite Hsz. by vm_compute.
Defined.


Lemma tostring_inj n m : tostring n = tostring m → n = m.
Proof. unfold tostring. apply pretty_Z_inj. Qed.

Lemma recordRooms_lookup descs (m : gmap string RoomData) k :
  recordRooms descs m !! k =
    match last_with_key k descs with
    | Some x => Some x
    | None => m !! k
    end.
Proof.
  revert m. induction descs as [|d rest IH]; intros m; [done|].
  cbn [recordRooms last_with_key].
  destruct (Data d) as [data|] eqn:Hd; rewrite IH.
  - destruct (last_with_key k rest); [done|]. cbn [fmap option_fmap option_map].
    case_decide as Hk.
    + subst k. by rewrite lookup_insert_eq.
    + by rewrite lookup_insert_ne.
  - destruct (last_with_key k rest); [done|]. by case_decide.
Qed.

Lemma last_with_key_Some k descs x :
  last_with_key k descs = Some x →
  ∃ d data, d ∈ descs ∧ Data d = Some data ∧
            k = tostring (SafeGridIndex d) ∧ x = roomData_of data.
Proof.
  induction descs as [|d rest IH]; [done|]. cbn [last_with_key].
  destruct (last_with_key k rest) as [y|].
  - intros [= <-]. destruct IH as (d' & data & Hin & Hd & Hk & Hx); [done|].
    exists d', data. split; [by right|done].
  - case_decide as Hk; [|done]. destruct (Data d) as [data|] eqn:Hd; [|done].
    intros [= <-]. exists d, data. split; [by left|done].
Qed.

Lemma last_with_key_None k descs :
  last_with_key k descs = None →
  ∀ d, d ∈ descs → has_data d → tostring (SafeGridIndex d) ≠ k.
Proof.
  induction descs as [|d rest IH]; [by intros _ d' Hin; inv Hin|].
  cbn [last_with_key]. destruct (last_with_key k rest) as [y|]; [done|].
  intros Hnone d' Hin Hdata. inv Hin; [|by apply IH].
  case_decide as Hk; [|done]. destruct Hdata as [data Hd]. by rewrite Hd in Hnone.
Qed.

Lemma last_with_key_unique k descs d data :
  NoDup (SafeGridIndex <$> descs) → d ∈ descs → Data d = Some data →
  k = tostring (SafeGridIndex d) → last_with_key k descs = Some (roomData_of data).
Proof.
  intros Hnd Hin Hd ->. induction descs as [|d' rest IH]; [by inv Hin|].
  cbn [fmap list_fmap] in Hnd. apply NoDup_cons in Hnd as [Hnotin Hnd].
  cbn [last_with_key]. inv Hin.
  - destruct (last_with_key _ rest) as [y|] eqn:Hl.
    + apply last_with_key_Some in Hl as (d2 & _ & Hin2 & _ & Hk%tostring_inj & _).
      destruct Hnotin. rewrite Hk. by apply list_elem_of_fmap_2.
    + rewrite decide_True by done. by rewrite Hd.
  - by rewrite IH.
Qed.

Lemma recordRooms_size descs (m : gmap string RoomData) :
  NoDup (SafeGridIndex <$> descs) →
  (∀ d, d ∈ descs → m !! tostring (SafeGridIndex d) = None) →
  size (recordRooms descs m) = (size m + length (filter has_data descs))%nat.
Proof.
  revert m. induction descs as [|d rest IH]; intros m Hnd Hfresh.
  { cbn. lia. }
  cbn [fmap list_fmap] in Hnd. apply NoDup_cons in Hnd as [Hnotin Hnd].
  cbn [recordRooms]. destruct (Data d) as [data|] eqn:Hd.
  - rewrite filter_cons_True by (unfold has_data; rewrite Hd; by eexists).
    rewrite IH; [|done|].
    + rewrite map_size_insert_None by (apply Hfresh; by left). cbn [length]. lia.
    + intros d' Hin. rewrite lookup_insert_ne; [apply Hfresh; by right|].
      intros Heq%tostring_inj. destruct Hnotin. rewrite Heq. by apply list_elem_of_fmap_2.
  - rewrite filter_cons_False by (unfold has_data; rewrite Hd; by intros [? [=]]).
    apply IH; [done|]. intros d' Hin. apply Hfresh. by right.
Qed.

Lemma length_filter_has_data descs :
  (length (filter has_data descs) + length (filter (λ d, Data d = None) descs))%nat
  = length descs.
Proof.
  induction descs as [|d rest IH]; [done|].
  destruct (Data d) as [data|] eqn:Hd.
  - rewrite filter_cons_True by (unfold has_data; rewrite Hd; by eexists).
    rewrite (filter_cons_False (λ d, Data d = None)) by (by rewrite Hd).
    cbn [length]. lia.
  - rewrite filter_cons_False by (unfold has_data; rewrite Hd; by intros [? [=]]).
    rewrite (filter_cons_True (λ d, Data d = None)) by done.
    cbn [length]. lia.
Qed.

(** C7, as stated, fails: two descriptors with layout data may carry the
    same position key; the later one replaces the earlier one's entry.  Here
    five descriptors of which one lacks layout data give three entries, and
    the first descriptor's key holds the fourth descriptor's fields. *)
Lemma recordRooms_collision_counterexample :
  length colliding_rooms = 5%nat ∧
  length (filter (λ d, Data d = None) colliding_rooms) = 1%nat ∧
  size (recordRooms colliding_rooms ∅) = 3%nat ∧
  colliding_rooms !! 0%nat =
    Some {| SafeGridIndex := 84;
            Data := Some {| Shape := 1; StageID := 1; Variant := 2; Subtype := 0 |} |} ∧
  recordRooms colliding_rooms ∅ !! tostring 84 =
    Some {| shape := 8; stageID := 27; variant := 5; subType := 0 |}.
Proof. compute_done. Qed.

(** C7, amended: the rooms map built by [recordFloor] has an entry exactly
    under the position keys of the descriptors that have layout data, each
    holding the fields of the last such descriptor with that key.  When the
    descriptors' position keys are pairwise distinct, every descriptor with
    layout data is mapped to a snapshot of its own shape, stage id, variant
    and subtype, a descriptor without layout data has no entry, and the
    number of entries is the number of descriptors with layout data: five
    descriptors of which one lacks layout data give four entries.  The map
    is stored in the current floors map under the key of the cursor. *)
Theorem recordFloor_entries (h : Host) (s : State) :
  let roomsMap := recordRooms (rooms h) ∅ in
  (∀ k, is_Some (roomsMap !! k) ↔
        ∃ d, d ∈ rooms h ∧ has_data d ∧ k = tostring (SafeGridIndex d)) ∧
  (∀ k, roomsMap !! k = last_with_key k (rooms h)) ∧
  (NoDup (SafeGridIndex <$> rooms h) →
     (∀ d data, d ∈ rooms h → Data d = Some data →
        roomsMap !! tostring (SafeGridIndex d) =
          Some {| shape := Shape data; stageID := StageID data;
                  variant := Variant data; subType := Subtype data |}) ∧
     (∀ d, d ∈ rooms h → Data d = None →
        roomsMap !! tostring (SafeGridIndex d) = None) ∧
     size roomsMap = length (filter has_data (rooms h)) ∧
     (length (rooms h) = 5%nat →
      length (filter (λ d, Data d = None) (rooms h)) = 1%nat →
      size roomsMap = 4%nat)) ∧
  result recordFloor h s = Return () ∧
  ((floorsMap s < length (tables s))%nat →
     deref (tables (exec recordFloor h s)) (floorsMap s)
       !! floorsMapIndex (recordingStage s) (recordingStageType s) = Some roomsMap).
Proof.
  intros roomsMap.
  assert (∀ k, roomsMap !! k = last_with_key k (rooms h)) as Hlookup.
  { intros k. unfold roomsMap. rewrite recordRooms_lookup, lookup_empty.
    by destruct (last_with_key k (rooms h)). }
  split_and!.
  - intros k. rewrite Hlookup. split.
    + intros [x Hx]. apply last_with_key_Some in Hx as (d & data & Hin & Hd & Hk & _).
      exists d. split; [done|]. split; [|done]. unfold has_data. rewrite Hd. by eexists.
    + intros (d & Hin & Hdata & ->).
      destruct (last_with_key _ (rooms h)) as [x|] eqn:Hl; [by eexists|].
      by destruct (last_with_key_None _ _ Hl d Hin Hdata).
  - exact Hlookup.
  - intros Hnd.
    assert (size roomsMap = length (filter has_data (rooms h))) as Hsize.
    { unfold roomsMap. rewrite recordRooms_size; [by rewrite map_size_empty|done|].
      intros d _. apply lookup_empty. }
    split_and!.
    + intros d data Hin Hd. rewrite Hlookup.
      by apply (last_with_key_unique _ _ d data).
    + intros d Hin Hd. rewrite Hlookup.
      destruct (last_with_key _ (rooms h)) as [x|] eqn:Hl; [|done].
      apply last_with_key_Some in Hl as (d2 & data & Hin2 & Hd2 & Hk%tostring_inj & _).
      assert (d = d2) as ->; [|by rewrite Hd in Hd2].
      apply list_elem_of_lookup in Hin as [i Hi]. apply list_elem_of_lookup in Hin2 as [j Hj].
      assert (i = j) as ->; [|congruence].
      apply (NoDup_lookup (SafeGridIndex <$> rooms h) i j (SafeGridIndex d)); [done| |].
      * by rewrite list_lookup_fmap, Hi.
      * by rewrite list_lookup_fmap, Hj, Hk.
    + exact Hsize.
    + intros H5 H1. rewrite Hsize.
      pose proof (length_filter_has_data (rooms h)) as Hlen. lia.
  - unfold result. by rewrite recordFloor_eq.
  - intros Hlt. unfold exec. rewrite recordFloor_eq. destruct s; cbn in *.
    unfold deref at 1. rewrite list_lookup_insert_eq by done. cbn.
    by rewrite lookup_insert_eq.
Qed.

Lemma recordFloor_entries_witness :
  let h := sample_host "A" sample_rooms in
  NoDup (SafeGridIndex <$> rooms h) ∧
  sample_rooms !! 1%nat = Some {| SafeGridIndex := 85; Data := None |} ∧
  recordRooms (rooms h) ∅ !! tostring 85 = None ∧
  size (recordRooms (rooms h) ∅) = 2%nat.
Proof.
  intros h.
  assert (NoDup (SafeGridIndex <$> rooms h)) as Hnd by compute_done.
  split; [done|]. split; [done|].
  destruct (recordFloor_entries h (started h)) as (_ & _ & H & _).
  destruct (H Hnd) as (_ & Hnone & Hsize & _). split.
  - apply (Hnone {| SafeGridIndex := 85; Data := None |}); [|done].
    right; left.
  - rewrite Hsize. done.
Defined.


Lemma fire_arrival h s : fire s (h, MC_POST_NEW_LEVEL) = exec postNewLevel h s.
Proof. reflexivity. Qed.

Lemma arrivals_cons h hs : arrivals (h :: hs) = (h, MC_POST_NEW_LEVEL) :: arrivals hs.
Proof. reflexivity. Qed.

Lemma cursor_path_S fuel c :
  cursor_path (S fuel) c =
    if completes c then Some [c]
    else match cursor_path fuel (advanceCursor c) with
         | Some cs => Some (c :: cs)
         | None => None
         end.
Proof. reflexivity. Qed.

Lemma cursor_path_mono fuel fuel' c cs :
  cursor_path fuel c = Some cs → (fuel ≤ fuel')%nat → cursor_path fuel' c = Some cs.
Proof.
  revert fuel' c cs. induction fuel as [|fuel IH]; intros fuel' c cs; [done|].
  destruct fuel' as [|fuel']; [lia|]. rewrite !cursor_path_S.
  destruct (completes c); [done|].
  destruct (cursor_path fuel (advanceCursor c)) as [cs'|] eqn:Hp; [|done].
  intros [= <-] Hle. by rewrite (IH fuel' _ cs') by (done || lia).
Qed.

Lemma cursor_path_full :
  cursor_path 43 (LevelStage.STAGE1_1, StageType.STAGETYPE_ORIGINAL) = Some full_traversal.
Proof. compute_done. Qed.

Lemma incrementStageType_mod h s : mod_ (incrementStageType h s).2 = mod_ s.
Proof.
  destruct (completes (cursor s)) eqn:Hc.
  - rewrite incrementStageType_completes by done.
    unfold mbind, M_bind, restartOnNextFrame, modify, mret, M_ret.
    rewrite recordAllFloorsToSeedMap_eq. cbv zeta.
    destruct (_ =? _); [|by destruct s].
    rewrite writeAllRecordedDataToSaveDatFile_eq. by destruct s as [[m|] ? ? ? ? ? ? ? ? ?].
  - rewrite incrementStageType_continues by done. by destruct s.
Qed.

Lemma traverse_cursor_path fuel h s :
  is_Some (mod_ s) → fst <$> traverse fuel h s = cursor_path fuel (cursor s).
Proof.
  revert s. induction fuel as [|fuel IH]; intros s Hm; [done|].
  rewrite cursor_path_S. cbn [traverse].
  pose proof (incrementStageType_cursor h s) as Hcur.
  pose proof (incrementStageType_mod h s) as Hmod. unfold exec in Hcur.
  destruct (completes (cursor s)) eqn:Hc.
  - by rewrite incrementStageType_completes_registered.
  - rewrite incrementStageType_continues in * by done. cbn [snd] in *.
    rewrite <- Hcur, <- IH by (by rewrite Hmod).
    by destruct (traverse fuel h _) as [[cs s'']|].
Qed.

(** One floor arrival of the remembered seed, away from the last floor:
    the floor is stored under the cursor's key and the cursor advances. *)
Lemma postNewLevel_continue h s :
  currentStartSeedString s = Some (startSeedString h) →
  completes (cursor s) = false →
  let s' := exec postNewLevel h s in
  cursor s' = advanceCursor (cursor s) ∧
  tables s' =
    <[floorsMap s :=
        <[floorsMapIndex (recordingStage s) (recordingStageType s) :=
            recordRooms (rooms h) ∅]> (deref (tables s) (floorsMap s))]> (tables s) ∧
  floorsMap s' = floorsMap s ∧ seedsMap s' = seedsMap s ∧
  seedsMapSize s' = seedsMapSize s ∧ restart s' = restart s ∧
  currentStartSeedString s' = currentStartSeedString s ∧ mod_ s' = mod_ s ∧
  loads (log s') = loads (log s) ++ [advanceCursor (cursor s)].
Proof.
  intros Hseed Hc s'. subst s'. destruct s as [m cur r st ty fm sm n ts l].
  state_simpl. subst cur. unfold exec.
  rewrite postNewLevel_eq. cbv zeta. state_simpl.
  rewrite bool_decide_eq_false_2 by (by intros []).
  rewrite recordFloor_eq. state_simpl.
  rewrite moveToNextFloor_eq, incrementStageType_continues by done. state_simpl.
  destruct (advanceCursor (st, ty)) as [st' ty']. state_simpl.
  rewrite !loads_app. cbn [loads omap app]. rewrite ?app_nil_r. done.
Qed.

(** The arrival on the last floor: the floor is stored, the floors map is
    bound to the seed, the counter grows, the cursor wraps and the restart
    flag is set. *)
Lemma postNewLevel_complete h s :
  currentStartSeedString s = Some (startSeedString h) →
  completes (cursor s) = true → is_Some (mod_ s) →
  let s' := exec postNewLevel h s in
  cursor s' = (LevelStage.STAGE1_1, StageType.STAGETYPE_ORIGINAL) ∧
  tables s' =
    <[floorsMap s :=
        <[floorsMapIndex (recordingStage s) (recordingStageType s) :=
            recordRooms (rooms h) ∅]> (deref (tables s) (floorsMap s))]> (tables s) ∧
  floorsMap s' = floorsMap s ∧
  seedsMap s' = <[startSeedString h := floorsMap s]> (seedsMap s) ∧
  seedsMapSize s' = int_add (seedsMapSize s) 1 ∧ restart s' = true ∧
  currentStartSeedString s' = currentStartSeedString s ∧ mod_ s' = mod_ s ∧
  loads (log s') = loads (log s).
Proof.
  intros Hseed Hc Hm s'. subst s'. destruct s as [m cur r st ty fm sm n ts l].
  state_simpl. subst cur. unfold exec.
  rewrite postNewLevel_eq. cbv zeta. state_simpl.
  rewrite bool_decide_eq_false_2 by (by intros []).
  rewrite recordFloor_eq. state_simpl.
  rewrite moveToNextFloor_eq, incrementStageType_completes_registered by done.
  state_simpl.
  rewrite recordAllFloorsToSeedMap_registered by done. state_simpl.
  rewrite !loads_app. split_and!; try done.
  destruct (_ =? _); cbn [loads omap app]; by rewrite ?app_nil_r.
Qed.


Lemma record_pass_cons c cs h hs (fm : gmap string (gmap string RoomData)) :
  record_pass (c :: cs) (h :: hs) fm =
    record_pass cs hs (<[cursor_key c := recordRooms (rooms h) ∅]> fm).
Proof. reflexivity. Qed.

Lemma record_pass_dom cs hs (fm : gmap string (gmap string RoomData)) :
  length hs = length cs →
  dom (record_pass cs hs fm) = dom fm ∪ list_to_set (cursor_key <$> cs).
Proof.
  revert hs fm. induction cs as [|c cs IH]; intros [|h hs] fm Hlen; try done.
  { cbn. set_solver. }
  rewrite record_pass_cons, IH by (cbn in Hlen; lia).
  rewrite dom_insert_L. cbn [fmap list_fmap]. rewrite list_to_set_cons. set_solver.
Qed.

Lemma record_pass_lookup_ne cs hs (fm : gmap string (gmap string RoomData)) k :
  k ∉ cursor_key <$> cs → record_pass cs hs fm !! k = fm !! k.
Proof.
  revert hs fm. induction cs as [|c cs IH]; intros [|h hs] fm Hk; try done.
  cbn [fmap list_fmap] in Hk. apply not_elem_of_cons in Hk as [Hne Hk].
  rewrite record_pass_cons, IH by done. by rewrite lookup_insert_ne.
Qed.

Lemma record_pass_lookup cs hs (fm : gmap string (gmap string RoomData)) i c h :
  NoDup (cursor_key <$> cs) → cs !! i = Some c → hs !! i = Some h →
  record_pass cs hs fm !! cursor_key c = Some (recordRooms (rooms h) ∅).
Proof.
  revert hs fm i. induction cs as [|c0 cs IH]; intros [|h0 hs] fm i Hnd Hc Hh; try done.
  cbn [fmap list_fmap] in Hnd. apply NoDup_cons in Hnd as [Hnotin Hnd].
  rewrite record_pass_cons. destruct i as [|i]; cbn in Hc, Hh.
  - injection Hc as ->. injection Hh as ->.
    rewrite record_pass_lookup_ne by done. by rewrite lookup_insert_eq.
  - by apply (IH hs _ i).
Qed.

Lemma deref_insert ts r (fm : gmap string (gmap string RoomData)) :
  (r < length ts)%nat → deref (<[r := fm]> ts) r = fm.
Proof. intros Hlt. unfold deref. by rewrite list_lookup_insert_eq. Qed.

Lemma cursor_path_head fuel c cs :
  cursor_path fuel c = Some cs → ∃ cs', cs = c :: cs'.
Proof.
  destruct fuel as [|fuel]; [done|]. rewrite cursor_path_S.
  destruct (completes c); [intros [= <-]; by eexists|].
  destruct (cursor_path fuel _) as [cs'|]; [|done]. intros [= <-]. by eexists.
Qed.

(** A whole pass: floor arrivals of the remembered seed along a cursor path
    that ends the traversal. *)
Lemma arrivals_pass fuel :
  ∀ c cs hs s seed,
    cursor_path fuel c = Some cs → length hs = length cs →
    cursor s = c → currentStartSeedString s = Some seed →
    Forall (λ h, startSeedString h = seed) hs →
    is_Some (mod_ s) → (floorsMap s < length (tables s))%nat →
    let s' := run (arrivals hs) s in
    cursor s' = (LevelStage.STAGE1_1, StageType.STAGETYPE_ORIGINAL) ∧
    tables s' =
      <[floorsMap s := record_pass cs hs (deref (tables s) (floorsMap s))]> (tables s) ∧
    floorsMap s' = floorsMap s ∧
    seedsMap s' = <[seed := floorsMap s]> (seedsMap s) ∧
    seedsMapSize s' = int_add (seedsMapSize s) 1 ∧
    restart s' = true ∧
    loads (log s') = loads (log s) ++ tail cs ∧
    currentStartSeedString s' = currentStartSeedString s.
Proof.
  induction fuel as [|fuel IH]; intros c cs hs s seed Hpath Hlen Hcur Hseed Hall Hm Hlt;
    [done|].
  rewrite cursor_path_S in Hpath. destruct (completes c) eqn:Hc.
  - injection Hpath as <-. destruct hs as [|h [|h' hs]]; try done.
    apply Forall_cons in Hall as [Hh _]. subst seed c.
    cbv zeta. rewrite arrivals_cons, run_cons, fire_arrival.
    destruct (postNewLevel_complete h s Hseed Hc Hm)
      as (H1 & H2 & H3 & H4 & H5 & H6 & H7 & _ & H9).
    change (run (arrivals []) ?x) with x.
    split_and!; try done. cbn [tail]. by rewrite app_nil_r.
  - destruct (cursor_path fuel (advanceCursor c)) as [cs'|] eqn:Hp; [|done].
    injection Hpath as <-. destruct hs as [|h hs]; [done|].
    apply Forall_cons in Hall as [Hh Hall]. subst seed c.
    cbv zeta. rewrite arrivals_cons, run_cons, fire_arrival.
    destruct (postNewLevel_continue h s Hseed Hc)
      as (H1 & H2 & H3 & H4 & H5 & H6 & H7 & H8 & H9).
    destruct (IH _ cs' hs (exec postNewLevel h s) (startSeedString h) Hp) as
      (G1 & G2 & G3 & G4 & G5 & G6 & G7 & G8).
    { cbn in Hlen. lia. }
    { done. }
    { by rewrite H7. }
    { done. }
    { by rewrite H8. }
    { rewrite H3, H2, length_insert. done. }
    rewrite G1, G2, G3, G4, G5, G6, G7, G8. rewrite H2, H3, H4, H5, H7, H9.
    rewrite deref_insert, list_insert_insert_eq by done.
    split_and!; try done.
    rewrite <- app_assoc. cbn [tail app]. f_equal.
    destruct (cursor_path_head _ _ _ Hp) as [cs'' ->]. done.
Qed.

Lemma full_traversal_keys_NoDup : NoDup (cursor_key <$> full_traversal).
Proof. compute_done. Qed.

(** C1: from the cursor (first stage, base variant), repeating
    [incrementStageType] until it returns true visits exactly
    [full_traversal]: every stage from 1 to 12 but 9, once and in
    increasing order, each with all of its variants; that is 43 cursors.
    A run that starts at that cursor and receives the 43 floor arrivals of
    its seed stores, under the seed string, a floors map with exactly the 43
    keys "stage.variant", each holding the rooms recorded at that arrival. *)
Theorem full_traversal_recorded (h0 : Host) (hs : list Host) (s : State) :
  is_Some (mod_ s) →
  cursor s = (LevelStage.STAGE1_1, StageType.STAGETYPE_ORIGINAL) →
  currentStartSeedString s = Some (startSeedString h0) →
  eligible false h0 → preventAllCurses h0 = true →
  length hs = 43%nat →
  Forall (λ h, startSeedString h = startSeedString h0) hs →
  let s' := run (arrivals hs) (exec (postGameStarted false) h0 s) in
  (∀ fuel, (43 ≤ fuel)%nat → fst <$> traverse fuel h0 s = Some full_traversal) ∧
  length full_traversal = 43%nat ∧
  NoDup full_traversal ∧
  stages_in_order = [1; 2; 3; 4; 5; 6; 7; 8; 10; 11; 12] ∧
  (∀ st, st ∈ stages_in_order →
     filter (λ c, c.1 = st) full_traversal = (λ ty, (st, ty)) <$> variants_of st) ∧
  ∃ fm : gmap string (gmap string RoomData),
    snapshot s' !! startSeedString h0 = Some fm ∧
    size fm = 43%nat ∧
    dom fm = list_to_set ((λ c, tostring c.1 +:+ "." +:+ tostring c.2) <$> full_traversal) ∧
    (∀ i c h, full_traversal !! i = Some c → hs !! i = Some h →
       fm !! (tostring c.1 +:+ "." +:+ tostring c.2) = Some (recordRooms (rooms h) ∅)) ∧
    seedsMapSize s' = int_add (seedsMapSize s) 1 ∧
    restart s' = true.
Proof.
  intros Hm Hcur Hseed Hel Hp Hlen Hall. cbv zeta.
  split_and!.
  - intros fuel Hfuel. rewrite traverse_cursor_path, Hcur by done.
    apply (cursor_path_mono 43); [apply cursor_path_full | done].
  - compute_done.
  - compute_done.
  - compute_done.
  - intros st Hst.
    assert (Forall (λ st, filter (λ c : Z * Z, c.1 = st) full_traversal
                          = (λ ty, (st, ty)) <$> variants_of st) stages_in_order) as Hfa
      by compute_done.
    rewrite Forall_forall in Hfa. by apply Hfa.
  - pose proof (postGameStarted_eq false h0 s) as Heq. cbv zeta in Heq.
    rewrite validateRun_eq in Heq.
    rewrite (proj2 (ineligible_message_None false h0) Hel), Hp in Heq.
    set (s1 := exec (postGameStarted false) h0 s).
    assert (cursor s1 = cursor s ∧ currentStartSeedString s1 = currentStartSeedString s ∧
            mod_ s1 = mod_ s ∧ floorsMap s1 = length (tables s) ∧
            tables s1 = tables s ++ [∅] ∧ seedsMap s1 = seedsMap s ∧
            seedsMapSize s1 = seedsMapSize s) as (E1 & E2 & E3 & E4 & E5 & E6 & E7).
    { unfold s1, exec. rewrite Heq. by destruct s. }
    destruct (arrivals_pass 43 _ full_traversal hs s1 (startSeedString h0) cursor_path_full)
      as (G1 & G2 & G3 & G4 & G5 & G6 & G7).
    { by rewrite Hlen. }
    { by rewrite E1. }
    { by rewrite E2. }
    { done. }
    { by rewrite E3. }
    { rewrite E4, E5, length_app. cbn. lia. }
    assert (deref (tables s1) (floorsMap s1) = ∅) as Hempty.
    { unfold deref. by rewrite E4, E5, lookup_app_r, Nat.sub_diag. }
    rewrite Hempty in G2.
    exists (record_pass full_traversal hs ∅).
    assert (dom (record_pass full_traversal hs ∅)
            = list_to_set (cursor_key <$> full_traversal)) as Hdom.
    { rewrite record_pass_dom by (by rewrite Hlen). set_solver. }
    split_and!.
    + unfold snapshot. rewrite lookup_fmap, G4, lookup_insert_eq. cbn.
      rewrite G2, deref_insert; [done|]. rewrite E4, E5, length_app. cbn. lia.
    + rewrite <- size_dom, Hdom, size_list_to_set by apply full_traversal_keys_NoDup.
      by rewrite length_fmap.
    + exact Hdom.
    + intros i c h Hc Hh.
      by apply (record_pass_lookup _ _ _ i c h full_traversal_keys_NoDup).
    + by rewrite G5, E7.
    + exact G6.
Qed.


Lemma full_traversal_recorded_witness :
  let h0 := sample_host "A" sample_rooms in
  let hs := replicate 43 (sample_host "A" other_rooms) in
  let s' := run (arrivals hs) (exec (postGameStarted false) h0 seed_remembered) in
  (is_Some (mod_ seed_remembered) ∧
   cursor seed_remembered = (LevelStage.STAGE1_1, StageType.STAGETYPE_ORIGINAL) ∧
   currentStartSeedString seed_remembered = Some (startSeedString h0) ∧
   eligible false h0 ∧ preventAllCurses h0 = true ∧ length hs = 43%nat ∧
   Forall (λ h, startSeedString h = startSeedString h0) hs) ∧
  size <$> snapshot s' !! "A" = Some 43%nat ∧
  fst <$> traverse 50 h0 seed_remembered = Some full_traversal.
Proof.
  intros h0 hs s'.
  assert (is_Some (mod_ seed_remembered)) as H1 by (by eexists).
  assert (cursor seed_remembered = (LevelStage.STAGE1_1, StageType.STAGETYPE_ORIGINAL))
    as H2 by reflexivity.
  assert (currentStartSeedString seed_remembered = Some (startSeedString h0))
    as H3 by reflexivity.
  assert (eligible false h0) as H4 by (by repeat split).
  assert (preventAllCurses h0 = true) as H5 by reflexivity.
  assert (length hs = 43%nat) as H6 by reflexivity.
  assert (Forall (λ h, startSeedString h = startSeedString h0) hs) as H7
    by (apply Forall_replicate; reflexivity).
  split; [by split_and!|].
  destruct (full_traversal_recorded h0 hs seed_remembered H1 H2 H3 H4 H5 H6 H7)
    as (Ht & _ & _ & _ & _ & fm & Hfm & Hsize & _).
  split.
  - change (size <$> snapshot s' !! startSeedString h0 = Some 43%nat).
    unfold s'. rewrite Hfm. cbn. by rewrite Hsize.
  - apply Ht. lia.
Defined.

Lemma cursor_always_valid_witness :
  let h := sample_host "A" sample_rooms in
  let evs := [(h, MC_POST_NEW_LEVEL); (h, MC_POST_GAME_STARTED false)] in
  GoToStage 1 0 ∈ log (run evs (started h)) ∧ valid_cursor (1, 0).
Proof.
  intros h evs.
  assert (GoToStage 1 0 ∈ log (run evs (started h))) as Hin by compute_done.
  split; [exact Hin|].
  destruct (cursor_always_valid h) as [_ H].
  destruct (H evs) as [_ Hloads]. by apply Hloads.
Defined.

Lemma variant_ceilings_witness :
  let h := sample_host "A" sample_rooms in
  (length (replicate 33 h) = 33%nat ∧
   cursor (advances (replicate 33 h) (started h)) = (7, StageType.STAGETYPE_REPENTANCE)) ∧
  (length (replicate 37 h) = 37%nat ∧
   cursor (advances (replicate 37 h) (started h)) = (8, StageType.STAGETYPE_REPENTANCE)) ∧
  (length (replicate 42 h) = 42%nat ∧
   cursor (advances (replicate 42 h) (started h)) = (12, StageType.STAGETYPE_ORIGINAL)).
Proof.
  intros h. split; [|split]; (split; [reflexivity|]).
  - destruct (variant_ceilings h (replicate 33 h)) as (_ & H & _).
    apply H. reflexivity.
  - destruct (variant_ceilings h (replicate 37 h)) as (_ & _ & H & _).
    apply H. reflexivity.
  - destruct (variant_ceilings h (replicate 42 h)) as (_ & _ & _ & _ & H).
    apply H. reflexivity.
Defined.

Lemma postGameStarted_cursor_witness :
  let h := sample_host "B" sample_rooms in
  (eligible false h ∧ preventAllCurses h = true) ∧
  last (log (exec (postGameStarted false) h interrupted_run)) = Some (GoToStage 1 1).
Proof.
  intros h.
  assert (eligible false h) as He by (by repeat split).
  assert (preventAllCurses h = true) as Hp by reflexivity.
  split; [done|].
  destruct (postGameStarted_cursor false h interrupted_run) as (_ & H & _).
  destruct (H He Hp) as (_ & Hlast & _). rewrite Hlast. by vm_compute.
Defined.


(** * Further properties of the callbacks *)

Lemma postGameStarted_fields continued h s :
  let s' := exec (postGameStarted continued) h s in
  mod_ s' = mod_ s ∧ seedsMap s' = seedsMap s ∧ seedsMapSize s' = seedsMapSize s ∧
  cursor s' = cursor s ∧ currentStartSeedString s' = currentStartSeedString s ∧
  ((tables s' = tables s ∧ floorsMap s' = floorsMap s) ∨
   (tables s' = tables s ++ [∅] ∧ floorsMap s' = length (tables s) ∧
    eligible continued h ∧ preventAllCurses h = true)).
Proof.
  cbv zeta. unfold exec. rewrite postGameStarted_eq. cbv zeta. rewrite validateRun_eq.
  pose proof (ineligible_message_None continued h) as Hel.
  destruct (ineligible_message continued h) as [msg|].
  { destruct s. split_and!; try done. by left. }
  destruct (preventAllCurses h) eqn:Hp.
  - destruct s. split_and!; try done. right. split_and!; try done. by apply Hel.
  - destruct s. split_and!; try done. by left.
Qed.

Lemma postNewLevel_skip h s :
  Some (startSeedString h) ≠ currentStartSeedString s →
  postNewLevel h s =
    (Return (),
     set_currentStartSeedString (Some (startSeedString h))
       (set_log (log s ++ [arrival_message h]) s)).
Proof.
  intros Hne. rewrite postNewLevel_eq. cbv zeta.
  by rewrite bool_decide_eq_true_2.
Qed.

(** What one event does to the recorded data, for a registered mod. *)
Lemma fire_fields s h e :
  is_Some (mod_ s) →
  let s' := fire s (h, e) in
  mod_ s' = mod_ s ∧
  ((tables s' = tables s ∧ floorsMap s' = floorsMap s ∧ seedsMap s' = seedsMap s ∧
    seedsMapSize s' = seedsMapSize s ∧ cursor s' = cursor s) ∨
   (tables s' = tables s ++ [∅] ∧ floorsMap s' = length (tables s) ∧
    seedsMap s' = seedsMap s ∧ seedsMapSize s' = seedsMapSize s ∧ cursor s' = cursor s) ∨
   (tables s' =
      <[floorsMap s := <[cursor_key (cursor s) := recordRooms (rooms h) ∅]>
                         (deref (tables s) (floorsMap s))]> (tables s) ∧
    floorsMap s' = floorsMap s ∧ seedsMap s' = seedsMap s ∧
    seedsMapSize s' = seedsMapSize s ∧ cursor s' = advanceCursor (cursor s) ∧
    completes (cursor s) = false) ∨
   (tables s' =
      <[floorsMap s := <[cursor_key (cursor s) := recordRooms (rooms h) ∅]>
                         (deref (tables s) (floorsMap s))]> (tables s) ∧
    floorsMap s' = floorsMap s ∧
    seedsMap s' = <[startSeedString h := floorsMap s]> (seedsMap s) ∧
    seedsMapSize s' = int_add (seedsMapSize s) 1 ∧
    cursor s' = (LevelStage.STAGE1_1, StageType.STAGETYPE_ORIGINAL) ∧
    completes (cursor s) = true)).
Proof.
  intros Hm. destruct e as [|continued|]; cbv zeta; unfold fire; cbn [fst snd callback].
  - unfold exec. rewrite postRender_eq.
    destruct s as [? ? [] ? ? ? ? ? ? ?]; (split; [done|by left]).
  - destruct (postGameStarted_fields continued h s) as (H1 & H2 & H3 & H4 & _ & [[H5 H6]|H5]).
    + split; [done|]. by left.
    + destruct H5 as (H5 & H6 & _). split; [done|]. right; left. done.
  - destruct (decide (Some (startSeedString h) = currentStartSeedString s)) as [Heq|Hne].
    + symmetry in Heq. destruct (completes (cursor s)) eqn:Hc.
      * destruct (postNewLevel_complete h s Heq Hc Hm)
          as (H1 & H2 & H3 & H4 & H5 & _ & _ & H8 & _).
        split; [done|]. right; right; right. done.
      * destruct (postNewLevel_continue h s Heq Hc)
          as (H1 & H2 & H3 & H4 & H5 & _ & _ & H8 & _).
        split; [done|]. right; right; left. done.
    + unfold exec. rewrite postNewLevel_skip by done. destruct s.
      split; [done|]. by left.
Qed.

Lemma started_registered h : is_Some (mod_ (started h)).
Proof. by eexists. Qed.

Lemma run_registered evs s : is_Some (mod_ s) → is_Some (mod_ (run evs s)).
Proof.
  revert s. induction evs as [|[h e] evs IH]; intros s Hm; [done|].
  rewrite run_cons. apply IH. destruct (fire_fields s h e Hm) as [Hmod _].
  by rewrite Hmod.
Qed.



Lemma started_store_ok h : store_ok (started h).
Proof.
  split; [cbn; lia|]. intros seed r Hr.
  change (seedsMap (started h)) with (∅ : gmap string nat) in Hr.
  by rewrite lookup_empty in Hr.
Qed.


(** * The completed-seed counter *)

Lemma int_add_1_ne x : int_add x 1 ≠ x.
Proof.
  unfold int_add, wrap, math_mininteger.
  change (2 ^ 64) with 18446744073709551616. intros H.
  revert H. Z.div_mod_to_equations. lia.
Qed.

Lemma int_add_max : int_add math_maxinteger 1 = math_mininteger.
Proof. reflexivity. Qed.

Lemma int_add_1_cases x :
  0 ≤ x ≤ math_maxinteger →
  (x < math_maxinteger ∧ int_add x 1 = x + 1) ∨
  (x = math_maxinteger ∧ int_add x 1 = math_mininteger).
Proof.
  intros Hx. destruct (decide (x = math_maxinteger)) as [->|Hne].
  - right. split; [done|apply int_add_max].
  - left. split; [lia|]. apply int_add_small. unfold math_mininteger, math_maxinteger in *. lia.
Qed.

(** Below the largest integer the counter's remainder test sees a positive
    number; at the largest integer the counter wraps to a number that is no
    multiple of [NUMBER_OF_SEEDS_BEFORE_WRITING_TO_DISK]. *)
Lemma multiple_of_N_int_add x :
  0 ≤ x ≤ math_maxinteger →
  multiple_of_N (int_add x 1) =
    (int_add x 1 `mod` NUMBER_OF_SEEDS_BEFORE_WRITING_TO_DISK =? 0).
Proof.
  intros Hx. unfold multiple_of_N.
  destruct (int_add_1_cases x Hx) as [[_ ->]|[_ ->]].
  - by rewrite (proj2 (Z.ltb_lt 0 (x + 1))) by lia.
  - reflexivity.
Qed.

Lemma fire_saves h e s :
  is_Some (mod_ s) →
  let s' := fire s (h, e) in
  (seedsMapSize s' = seedsMapSize s → saves (log s') = saves (log s)) ∧
  (seedsMapSize s' = int_add (seedsMapSize s) 1 →
     saves (log s') =
       saves (log s) ++
         (if seedsMapSize s' `mod` NUMBER_OF_SEEDS_BEFORE_WRITING_TO_DISK =? 0
          then [snapshot s'] else [])).
Proof.
  intros Hm. cbv zeta. pose proof (int_add_1_ne (seedsMapSize s)) as Hne.
  destruct (fire_counter h e s Hm) as [_ [[Hsz Hsv]|[Hsz Hsv]]]; split; intros Heq;
    try done; congruence.
Qed.

(** What an event does to the dataset's index and the counter: a seed is
    bound and counted exactly on the events [fold_completed] singles out. *)
Lemma fire_fold h e s :
  is_Some (mod_ s) →
  let s' := fire s (h, e) in
  if fold_completed s h e then
    seedsMap s' = <[startSeedString h := floorsMap s]> (seedsMap s) ∧
    seedsMapSize s' = int_add (seedsMapSize s) 1 ∧
    cursor s' = (LevelStage.STAGE1_1, StageType.STAGETYPE_ORIGINAL) ∧
    restart s' = true
  else seedsMap s' = seedsMap s ∧ seedsMapSize s' = seedsMapSize s.
Proof.
  intros Hm. cbv zeta. unfold fold_completed, records_floor.
  destruct e as [|continued|]; cbn [andb].
  - unfold fire, exec. cbn [fst snd callback]. rewrite postRender_eq.
    by destruct s as [? ? [] ? ? ? ? ? ? ?].
  - destruct (postGameStarted_fields continued h s) as (_ & H2 & H3 & _). done.
  - rewrite fire_arrival. case_bool_decide as Hseed; cbn [andb].
    + destruct (completes (cursor s)) eqn:Hc.
      * destruct (postNewLevel_complete h s Hseed Hc Hm) as (H1 & _ & _ & H4 & H5 & H6 & _).
        done.
      * destruct (postNewLevel_continue h s Hseed Hc) as (_ & _ & _ & H4 & H5 & _). done.
    + unfold exec. rewrite postNewLevel_skip by congruence. by destruct s.
Qed.

Lemma folds_cons ev evs s :
  folds (ev :: evs) s =
    ((if fold_completed s ev.1 ev.2 then 1 else 0) + folds evs (fire s ev))%nat.
Proof. reflexivity. Qed.

Lemma folds_app evs1 evs2 s :
  folds (evs1 ++ evs2) s = (folds evs1 s + folds evs2 (run evs1 s))%nat.
Proof.
  revert s. induction evs1 as [|ev evs1 IH]; intros s; [done|].
  cbn [app]. rewrite !folds_cons, run_cons, IH. lia.
Qed.

Lemma folds_le evs s : (folds evs s ≤ length evs)%nat.
Proof.
  revert s. induction evs as [|ev evs IH]; intros s; [done|].
  rewrite folds_cons. cbn [length]. specialize (IH (fire s ev)).
  destruct (fold_completed _ _ _); lia.
Qed.

(** Over a run the counter goes up by the number of seeds completed, as
    long as that stays within the integers; the number of writes follows
    the counter. *)
Lemma run_folds evs s :
  is_Some (mod_ s) → 0 ≤ seedsMapSize s →
  seedsMapSize s + Z.of_nat (folds evs s) ≤ math_maxinteger →
  seedsMapSize (run evs s) = seedsMapSize s + Z.of_nat (folds evs s) ∧
  (Z.of_nat (length (saves (log s))) =
     seedsMapSize s / NUMBER_OF_SEEDS_BEFORE_WRITING_TO_DISK →
   Z.of_nat (length (saves (log (run evs s)))) =
     seedsMapSize (run evs s) / NUMBER_OF_SEEDS_BEFORE_WRITING_TO_DISK).
Proof.
  revert s. induction evs as [|[h e] evs IH]; intros s Hm Hn Hb.
  { cbn [folds]. change (run [] s) with s. split; [lia|done]. }
  rewrite folds_cons in Hb |- *. cbn [fst snd] in *. rewrite run_cons.
  pose proof (fire_fold h e s Hm) as Hf. cbv zeta in Hf.
  destruct (fire_saves h e s Hm) as [Hsame Hsucc].
  assert (is_Some (mod_ (fire s (h, e)))) as Hm'.
  { destruct (fire_fields s h e Hm) as [Hmod _]. by rewrite Hmod. }
  destruct (fold_completed s h e).
  - destruct Hf as (_ & Hsz & _). specialize (Hsucc Hsz).
    rewrite int_add_small in Hsz
      by (unfold math_mininteger, math_maxinteger in *; lia).
    destruct (IH (fire s (h, e)) Hm') as [IH1 IH2]; [lia|lia|].
    split; [lia|]. intros Hlen. apply IH2.
    rewrite Hsucc, length_app, Hsz, Nat2Z.inj_add, Hlen. unfold_enums.
    destruct (Z.eqb_spec ((seedsMapSize s + 1) `mod` 100) 0) as [H0|H0]; cbn [length];
      revert H0; clear; intros H0; Z.div_mod_to_equations; lia.
  - destruct Hf as [_ Hsz]. specialize (Hsame Hsz).
    destruct (IH (fire s (h, e)) Hm') as [IH1 IH2]; [lia|lia|].
    split; [lia|]. intros Hlen. apply IH2. by rewrite Hsame, Hsz.
Qed.

(** Without the bound: the counter is the number of completed seeds, taken
    on the 64-bit integers. *)
Lemma wrap_wrap_add a b : wrap (wrap a + b) = wrap (a + b).
Proof.
  unfold wrap, math_mininteger.
  replace (a - -9223372036854775808) with (a + 9223372036854775808) by lia.
  replace ((a + 9223372036854775808) `mod` 2 ^ 64 + -9223372036854775808 + b
             - -9223372036854775808)
    with ((a + 9223372036854775808) `mod` 2 ^ 64 + b) by lia.
  replace (a + b - -9223372036854775808) with (a + 9223372036854775808 + b) by lia.
  by rewrite Zplus_mod_idemp_l.
Qed.

Lemma run_folds_wrap evs s :
  is_Some (mod_ s) → math_mininteger ≤ seedsMapSize s ≤ math_maxinteger →
  seedsMapSize (run evs s) = wrap (seedsMapSize s + Z.of_nat (folds evs s)).
Proof.
  revert s. induction evs as [|[h e] evs IH]; intros s Hm Hr.
  { cbn [folds]. change (run [] s) with s. rewrite Z.add_0_r. by rewrite wrap_small. }
  rewrite folds_cons, run_cons. cbn [fst snd].
  pose proof (fire_fold h e s Hm) as Hf. cbv zeta in Hf.
  assert (is_Some (mod_ (fire s (h, e)))) as Hm'.
  { destruct (fire_fields s h e Hm) as [Hmod _]. by rewrite Hmod. }
  destruct (fold_completed s h e).
  - destruct Hf as (_ & Hsz & _). rewrite IH, Hsz by (done || rewrite Hsz; apply int_add_range).
    unfold int_add. rewrite wrap_wrap_add. f_equal. lia.
  - destruct Hf as [_ Hsz]. rewrite IH, Hsz by (done || by rewrite Hsz). done.
Qed.


(** C3: a durable write of the whole dataset is performed exactly when a
    seed fold has just completed, that is on the floor arrival of the
    remembered seed whose advance wraps past the final stage and which
    binds and counts the seed, and the counter it leaves is a positive
    multiple of [NUMBER_OF_SEEDS_BEFORE_WRITING_TO_DISK].  Every other
    event binds no seed, leaves the counter alone and writes nothing; in
    particular a floor arrival within a seed records its floor, loads the
    next one and writes nothing.  A fold that brings the counter to 100 or
    200 writes, one that brings it to 37 does not.  This holds for a
    registered mod whose counter is a non-negative integer, which is the
    case on every state a run reaches before it has completed 2^63 seeds. *)
Theorem durable_write_iff :
  (∀ (h0 : Host) (evs : list (Host * Event)),
     Z.of_nat (folds evs (started h0)) ≤ math_maxinteger →
     let s := run evs (started h0) in
     is_Some (mod_ s) ∧ 0 ≤ seedsMapSize s ≤ math_maxinteger) ∧
  (∀ (h : Host) (e : Event) (s : State),
     is_Some (mod_ s) → 0 ≤ seedsMapSize s ≤ math_maxinteger →
     let s' := fire s (h, e) in
     saves (log s') =
       saves (log s) ++
         (if fold_completed s h e && multiple_of_N (seedsMapSize s')
          then [snapshot s'] else []) ∧
     (fold_completed s h e = true →
        seedsMap s' = <[startSeedString h := floorsMap s]> (seedsMap s) ∧
        seedsMapSize s' = int_add (seedsMapSize s) 1 ∧
        cursor s' = (LevelStage.STAGE1_1, StageType.STAGETYPE_ORIGINAL) ∧
        restart s' = true ∧
        (seedsMapSize s' = 100 ∨ seedsMapSize s' = 200 →
           saves (log s') = saves (log s) ++ [snapshot s']) ∧
        (seedsMapSize s' = 37 → saves (log s') = saves (log s))) ∧
     (fold_completed s h e = false →
        seedsMap s' = seedsMap s ∧ seedsMapSize s' = seedsMapSize s ∧
        saves (log s') = saves (log s)) ∧
     (records_floor s h e = true → completes (cursor s) = false →
        tables s' =
          <[floorsMap s := <[cursor_key (cursor s) := recordRooms (rooms h) ∅]>
                             (deref (tables s) (floorsMap s))]> (tables s) ∧
        loads (log s') = loads (log s) ++ [advanceCursor (cursor s)] ∧
        saves (log s') = saves (log s))).
Proof.
  split.
  - intros h0 evs Hb. cbv zeta. split; [apply run_registered, started_registered|].
    destruct (run_folds evs (started h0)) as [Hsz _];
      [apply started_registered|done|exact Hb|].
    rewrite Hsz. change (seedsMapSize (started h0)) with 0. lia.
  - intros h e s Hm Hn. cbv zeta.
    pose proof (fire_fold h e s Hm) as Hf. cbv zeta in Hf.
    destruct (fire_saves h e s Hm) as [Hsame Hsucc].
    assert (fold_completed s h e = false →
            seedsMap (fire s (h, e)) = seedsMap s ∧
            seedsMapSize (fire s (h, e)) = seedsMapSize s ∧
            saves (log (fire s (h, e))) = saves (log s)) as Hno.
    { intros Hfc. rewrite Hfc in Hf. destruct Hf as [Hmap Hsz]. auto. }
    split_and!.
    + destruct (fold_completed s h e) eqn:Hfc; cbn [andb].
      * destruct Hf as (_ & Hsz & _). rewrite (Hsucc Hsz), Hsz.
        by rewrite multiple_of_N_int_add.
      * destruct (Hno eq_refl) as (_ & _ & ->). by rewrite app_nil_r.
    + intros Hfc. rewrite Hfc in Hf. destruct Hf as (Hmap & Hsz & Hcur & Hr).
      specialize (Hsucc Hsz). split_and!; try done.
      * intros [H|H]; rewrite Hsucc, H; done.
      * intros H. rewrite Hsucc, H. cbn. by rewrite app_nil_r.
    + exact Hno.
    + intros Hrec Hc.
      assert (fold_completed s h e = false) as Hfc
        by (unfold fold_completed; by rewrite Hrec, Hc).
      destruct (Hno Hfc) as (_ & _ & Hsv). split_and!; [| |exact Hsv];
        destruct e; try done; cbn [records_floor] in Hrec;
        apply bool_decide_eq_true_1 in Hrec; rewrite fire_arrival;
        destruct (postNewLevel_continue h s Hrec Hc) as (_ & H2 & _ & _ & _ & _ & _ & _ & H9);
        done.
Qed.

Lemma durable_write_iff_witness :
  let h := sample_host "A" sample_rooms in
  let evs := [(h, MC_POST_NEW_LEVEL); (h, MC_POST_GAME_STARTED false);
              (h, MC_POST_NEW_LEVEL)] in
  (Z.of_nat (folds evs (started h)) ≤ math_maxinteger ∧
   0 ≤ seedsMapSize (run evs (started h)) ≤ math_maxinteger) ∧
  (is_Some (mod_ before_write) ∧ 0 ≤ seedsMapSize before_write ≤ math_maxinteger) ∧
  saves (log (fire before_write (h, MC_POST_NEW_LEVEL))) =
    [ {[ "A" := {[ "12.0" := recordRooms sample_rooms ∅ ]} ]} ] ∧
  (is_Some (mod_ seed_remembered) ∧
   0 ≤ seedsMapSize seed_remembered ≤ math_maxinteger) ∧
  saves (log (fire seed_remembered (h, MC_POST_NEW_LEVEL))) = [].
Proof.
  intros h evs. destruct durable_write_iff as [Hreach Hstep].
  assert (Z.of_nat (folds evs (started h)) ≤ math_maxinteger) as Hb by (by vm_compute).
  assert (is_Some (mod_ before_write)) as Hm by (by eexists).
  assert (0 ≤ seedsMapSize before_write ≤ math_maxinteger) as Hn by (by vm_compute).
  assert (is_Some (mod_ seed_remembered)) as Hm' by (by eexists).
  assert (0 ≤ seedsMapSize seed_remembered ≤ math_maxinteger) as Hn' by (by vm_compute).
  split; [split; [exact Hb|exact (proj2 (Hreach h evs Hb))]|].
  split; [exact (conj Hm Hn)|].
  split.
  - destruct (Hstep h MC_POST_NEW_LEVEL before_write Hm Hn) as (H & _).
    rewrite H. vm_compute. reflexivity.
  - split; [exact (conj Hm' Hn')|].
    destruct (Hstep h MC_POST_NEW_LEVEL seed_remembered Hm' Hn') as (_ & _ & _ & H).
    destruct H as (_ & _ & Hsv); [by vm_compute|by vm_compute|].
    rewrite Hsv. reflexivity.
Defined.


Lemma callback_result e h s :
  is_Some (mod_ s) →
  result (callback e) h s =
    match e with
    | MC_POST_GAME_STARTED continued =>
        match ineligible_message continued h with
        | Some msg => Throw msg
        | None => Return ()
        end
    | _ => Return ()
    end.
Proof.
  intros Hm. destruct e as [|continued|]; unfold result; cbn [callback].
  - rewrite postRender_eq. by destruct (restart s).
  - rewrite postGameStarted_eq. cbv zeta. rewrite validateRun_eq.
    destruct (ineligible_message continued h); [done|]. by destruct (preventAllCurses h).
  - rewrite postNewLevel_eq. cbv zeta. destruct (bool_decide _); [done|].
    rewrite recordFloor_eq, moveToNextFloor_eq. cbn [snd].
    destruct (completes (cursor s)) eqn:Hc.
    + by rewrite incrementStageType_completes_registered by (by destruct s).
    + by rewrite incrementStageType_continues by (by destruct s).
Qed.

(** X1: once [main] has registered the mod, the only errors a callback ever
    throws are the five run-eligibility errors of the game-start callback;
    the render and floor-arrival callbacks always return, and the error
    "Mod was not initialized." is never thrown. *)
Theorem only_eligibility_errors (h0 : Host) (evs : list (Host * Event))
    (h : Host) (e : Event) (msg : string) :
  result (callback e) h (run evs (started h0)) = Throw msg →
  ∃ continued,
    e = MC_POST_GAME_STARTED continued ∧ ¬ eligible continued h ∧
    ineligible_message continued h = Some msg ∧ msg ≠ "Mod was not initialized.".
Proof.
  rewrite callback_result by apply run_registered, started_registered.
  destruct e as [|continued|]; try done.
  destruct (ineligible_message continued h) as [m|] eqn:Hmsg; [|done].
  intros [= ->]. exists continued. split_and!; try done.
  - intros Hel%ineligible_message_None. by rewrite Hel in Hmsg.
  - unfold ineligible_message in Hmsg.
    repeat (case_match; [by injection Hmsg as <-|]). done.
Qed.

Lemma only_eligibility_errors_witness :
  let h := sample_host "A" sample_rooms in
  result (callback (MC_POST_GAME_STARTED true)) h (run [] (started h))
    = Throw "The isaac-floor-recorder mod will not work when continuing a run." ∧
  ¬ eligible true h.
Proof.
  intros h.
  assert (result (callback (MC_POST_GAME_STARTED true)) h (run [] (started h))
          = Throw "The isaac-floor-recorder mod will not work when continuing a run.")
    as Hres by reflexivity.
  split; [exact Hres|].
  destruct (only_eligibility_errors h [] h _ _ Hres) as (c & [= <-] & Hne & _).
  exact Hne.
Defined.

(** X2: if the mod has not been registered when the traversal completes on
    a counter that calls for a write, the advance throws
    "Mod was not initialized." after the seed has already been bound and
    counted and the cursor wrapped; nothing is saved and the restart is not
    scheduled. *)
Theorem fold_before_main_throws (h : Host) (s : State) :
  mod_ s = None →
  completes (cursor s) = true →
  (int_add (seedsMapSize s) 1) `mod` NUMBER_OF_SEEDS_BEFORE_WRITING_TO_DISK = 0 →
  let s' := exec incrementStageType h s in
  result incrementStageType h s = Throw "Mod was not initialized." ∧
  seedsMap s' = <[startSeedString h := floorsMap s]> (seedsMap s) ∧
  seedsMapSize s' = int_add (seedsMapSize s) 1 ∧
  cursor s' = (LevelStage.STAGE1_1, StageType.STAGETYPE_ORIGINAL) ∧
  restart s' = restart s ∧
  saves (log s') = saves (log s) ∧
  commands (log s') = commands (log s).
Proof.
  intros Hm Hc Hmod. cbv zeta. unfold exec, result.
  destruct s as [m cur r st ty fm sm n ts l]. state_simpl. subst m.
  rewrite incrementStageType_completes by done. state_simpl.
  unfold mbind, M_bind, restartOnNextFrame, modify, mret, M_ret.
  rewrite recordAllFloorsToSeedMap_eq. cbv zeta. state_simpl.
  rewrite (proj2 (Z.eqb_eq _ _) Hmod).
  rewrite writeAllRecordedDataToSaveDatFile_eq. state_simpl.
  rewrite saves_app, commands_app. cbn. by rewrite !app_nil_r.
Qed.

Lemma fold_before_main_throws_witness :
  let h := sample_host "A" sample_rooms in
  (mod_ unregistered_last_floor = None ∧
   completes (cursor unregistered_last_floor) = true ∧
   int_add (seedsMapSize unregistered_last_floor) 1
     `mod` NUMBER_OF_SEEDS_BEFORE_WRITING_TO_DISK = 0) ∧
  result incrementStageType h unregistered_last_floor = Throw "Mod was not initialized." ∧
  seedsMapSize (exec incrementStageType h unregistered_last_floor) = 100.
Proof.
  intros h.
  assert (mod_ unregistered_last_floor = None) as H1 by reflexivity.
  assert (completes (cursor unregistered_last_floor) = true) as H2 by compute_done.
  assert (int_add (seedsMapSize unregistered_last_floor) 1
            `mod` NUMBER_OF_SEEDS_BEFORE_WRITING_TO_DISK = 0) as H3 by reflexivity.
  split; [done|].
  destruct (fold_before_main_throws h unregistered_last_floor H1 H2 H3)
    as (Hres & _ & Hsize & _).
  split; [exact Hres|]. rewrite Hsize. reflexivity.
Defined.

(** X3: at any point of any run of the registered mod, the completed-seed
    counter is the number of seeds the run has completed, taken on the
    64-bit integers.  While fewer than 2^63 seeds have been completed it is
    that number itself, hence not negative, and the number of durable writes
    performed so far is the counter divided by
    [NUMBER_OF_SEEDS_BEFORE_WRITING_TO_DISK], rounded down. *)
Theorem writes_so_far (h0 : Host) (evs : list (Host * Event)) :
  let s := run evs (started h0) in
  let n := Z.of_nat (folds evs (started h0)) in
  seedsMapSize s = wrap n ∧
  (n ≤ math_maxinteger →
     seedsMapSize s = n ∧
     Z.of_nat (length (saves (log s))) =
       seedsMapSize s / NUMBER_OF_SEEDS_BEFORE_WRITING_TO_DISK).
Proof.
  cbv zeta. split.
  - rewrite run_folds_wrap by (apply started_registered || done). done.
  - intros Hb. destruct (run_folds evs (started h0)) as [Hsz Hlen];
      [apply started_registered|done|exact Hb|].
    split; [exact Hsz|]. by apply Hlen.
Qed.

Lemma writes_so_far_witness :
  let h := sample_host "A" sample_rooms in
  let evs := (h, MC_POST_NEW_LEVEL) :: full_pass sample_rooms in
  Z.of_nat (folds evs (started h)) ≤ math_maxinteger ∧
  seedsMapSize (run evs (started h)) = 1 ∧
  length (saves (log (run evs (started h)))) = 0%nat.
Proof.
  intros h evs.
  assert (Z.of_nat (folds evs (started h)) ≤ math_maxinteger) as Hb by (by vm_compute).
  split; [exact Hb|].
  destruct (writes_so_far h evs) as [_ H]. destruct (H Hb) as [Hsz Hlen].
  split.
  - rewrite Hsz. by vm_compute.
  - apply Nat2Z.inj. rewrite Hlen, Hsz. by vm_compute.
Defined.


Lemma run_size_folds evs s :
  is_Some (mod_ s) →
  (size (seedsMap (run evs s)) ≤ size (seedsMap s) + folds evs s)%nat.
Proof.
  revert s. induction evs as [|[h e] evs IH]; intros s Hm; [cbn; lia|].
  rewrite run_cons, folds_cons. cbn [fst snd].
  pose proof (fire_fold h e s Hm) as Hf. cbv zeta in Hf.
  assert (is_Some (mod_ (fire s (h, e)))) as Hm'.
  { destruct (fire_fields s h e Hm) as [Hmod _]. by rewrite Hmod. }
  specialize (IH _ Hm'). destruct (fold_completed s h e).
  - destruct Hf as (Hmap & _). rewrite Hmap, map_size_insert in IH.
    destruct (seedsMap s !! startSeedString h); cbn in IH; lia.
  - destruct Hf as [Hmap _]. rewrite Hmap in IH. lia.
Qed.

(** X4: the dataset is append-only and bounded by the seeds completed: an
    event never removes a seed from the dataset, and at any point of a run
    the dataset has at most as many entries as seeds were completed (fewer
    when a seed was completed more than once).  While fewer than 2^63 - 1
    seeds have been completed, no event lowers the counter, and the counter
    bounds the number of entries. *)
Theorem dataset_grows (h0 : Host) (evs : list (Host * Event)) (h : Host) (e : Event) :
  let s := run evs (started h0) in
  let s' := fire s (h, e) in
  dom (seedsMap s) ⊆ dom (seedsMap s') ∧
  (size (seedsMap s) ≤ folds evs (started h0))%nat ∧
  (Z.of_nat (folds evs (started h0)) < math_maxinteger →
     seedsMapSize s ≤ seedsMapSize s' ∧
     Z.of_nat (size (seedsMap s)) ≤ seedsMapSize s).
Proof.
  cbv zeta.
  assert (is_Some (mod_ (run evs (started h0)))) as Hm
    by apply run_registered, started_registered.
  pose proof (run_size_folds evs (started h0) (started_registered h0)) as Hsize.
  change (size (seedsMap (started h0))) with (size (∅ : gmap string nat)) in Hsize.
  rewrite map_size_empty in Hsize.
  pose proof (fire_fold h e _ Hm) as Hf. cbv zeta in Hf.
  split_and!.
  - destruct (fold_completed _ h e).
    + destruct Hf as (-> & _). rewrite dom_insert_L. set_solver.
    + destruct Hf as [-> _]. done.
  - lia.
  - intros Hb. destruct (run_folds evs (started h0)) as [Hsz _];
      [apply started_registered|done|change (seedsMapSize (started h0)) with 0; lia|].
    change (seedsMapSize (started h0)) with 0 in Hsz. split; [|lia].
    destruct (fold_completed _ h e).
    + destruct Hf as (_ & -> & _). rewrite int_add_small
        by (unfold math_mininteger, math_maxinteger in *; lia). lia.
    + destruct Hf as [_ ->]. done.
Qed.

Lemma dataset_grows_witness :
  let h := sample_host "A" sample_rooms in
  let evs := (h, MC_POST_NEW_LEVEL) :: full_pass sample_rooms in
  let s := run evs (started h) in
  Z.of_nat (folds evs (started h)) < math_maxinteger ∧
  Z.of_nat (size (seedsMap s)) ≤ seedsMapSize s ∧
  seedsMapSize s ≤ seedsMapSize (fire s (h, MC_POST_RENDER)).
Proof.
  intros h evs s.
  assert (Z.of_nat (folds evs (started h)) < math_maxinteger) as Hb by (by vm_compute).
  split; [exact Hb|].
  destruct (dataset_grows h evs h MC_POST_RENDER) as (_ & _ & H).
  destruct (H Hb) as [Hle Hsz]. split; [exact Hsz|exact Hle].
Defined.

Lemma snapshot_lookup s seed :
  snapshot s !! seed = deref (tables s) <$> seedsMap s !! seed.
Proof. unfold snapshot. by rewrite lookup_fmap. Qed.

Lemma deref_insert_ne ts r r' (fm : gmap string (gmap string RoomData)) :
  r ≠ r' → deref (<[r := fm]> ts) r' = deref ts r'.
Proof. intros Hne. unfold deref. by rewrite list_lookup_insert_ne. Qed.

Lemma deref_app ts ts' r : (r < length ts)%nat → deref (ts ++ ts') r = deref ts r.
Proof. intros Hlt. unfold deref. by rewrite lookup_app_l. Qed.




(** X6: from a fold until the next run start, the record stored for the
    completed seed and the floors map in progress are one and the same
    table.  The completing arrival leaves the seed bound to the current
    floors map; a further arrival of that seed then rewrites the stored
    record under the cursor's key, although no fold takes place. *)
Theorem stored_record_aliases_floorsMap (h : Host) (s : State) :
  is_Some (mod_ s) →
  (floorsMap s < length (tables s))%nat →
  currentStartSeedString s = Some (startSeedString h) →
  let s' := exec postNewLevel h s in
  (completes (cursor s) = true →
     seedsMap s' !! startSeedString h = Some (floorsMap s') ∧
     completes (cursor s') = false) ∧
  (completes (cursor s) = false →
   seedsMap s !! startSeedString h = Some (floorsMap s) →
     snapshot s' !! startSeedString h =
       Some (<[cursor_key (cursor s) := recordRooms (rooms h) ∅]>
               (deref (tables s) (floorsMap s))) ∧
     seedsMapSize s' = seedsMapSize s ∧ seedsMap s' = seedsMap s).
Proof.
  intros Hm Hlt Hseed. cbv zeta. split.
  - intros Hc. destruct (postNewLevel_complete h s Hseed Hc Hm)
      as (H1 & _ & H3 & H4 & _).
    rewrite H1, H3, H4, lookup_insert_eq. split; [done|]. compute_done.
  - intros Hc Hbound. destruct (postNewLevel_continue h s Hseed Hc)
      as (_ & H2 & _ & H4 & H5 & _).
    rewrite snapshot_lookup, H2, H4, H5, Hbound. cbn.
    by rewrite deref_insert.
Qed.

Lemma stored_record_aliases_floorsMap_witness :
  let h := sample_host "A" sample_rooms in
  let s := exec postNewLevel (sample_host "A" other_rooms) before_second_fold in
  (is_Some (mod_ s) ∧ (floorsMap s < length (tables s))%nat ∧
   currentStartSeedString s = Some (startSeedString h) ∧
   completes (cursor s) = false ∧
   seedsMap s !! startSeedString h = Some (floorsMap s)) ∧
  seedsMapSize (exec postNewLevel h s) = 2 ∧
  snapshot (exec postNewLevel h s) !! "A" ≠ snapshot s !! "A".
Proof.
  intros h s.
  assert (is_Some (mod_ s)) as H1 by compute_done.
  assert ((floorsMap s < length (tables s))%nat) as H2 by compute_done.
  assert (currentStartSeedString s = Some (startSeedString h)) as H3 by compute_done.
  assert (completes (cursor s) = false) as H4 by compute_done.
  assert (seedsMap s !! startSeedString h = Some (floorsMap s)) as H5 by compute_done.
  split; [exact (conj H1 (conj H2 (conj H3 (conj H4 H5))))|].
  destruct (stored_record_aliases_floorsMap h s H1 H2 H3) as [_ H].
  destruct (H H4 H5) as (_ & Hsize & _). split.
  - rewrite Hsize. compute_done.
  - compute_done.
Defined.

(** X7: after recording a floor the mod either asks for the next floor or
    ends the seed, never both: [moveToNextFloor] issues exactly one floor
    load, for the advanced cursor, when the traversal goes on, and none
    when it completes, in which case it schedules the restart instead. *)
Theorem moveToNextFloor_load_or_restart (h : Host) (s : State) :
  is_Some (mod_ s) →
  let s' := exec moveToNextFloor h s in
  result moveToNextFloor h s = Return () ∧
  cursor s' = advanceCursor (cursor s) ∧
  loads (log s') =
    loads (log s) ++ (if completes (cursor s) then [] else [advanceCursor (cursor s)]) ∧
  restart s' = (completes (cursor s) || restart s) ∧
  commands (log s') = commands (log s).
Proof.
  intros Hm. cbv zeta. unfold exec, result. rewrite moveToNextFloor_eq.
  destruct s as [m cur r st ty fm sm n ts l]. state_simpl.
  destruct (completes (st, ty)) eqn:Hc.
  - rewrite incrementStageType_completes_registered by done. state_simpl.
    rewrite recordAllFloorsToSeedMap_registered by done. state_simpl.
    assert (advanceCursor (st, ty) = (1, 0)) as ->.
    { revert Hc. unfold completes, advanceCursor. cbn [fst snd].
      by intros [-> ->]%andb_prop. }
    rewrite !loads_app, !commands_app.
    destruct (_ =? _); cbn; by rewrite ?app_nil_r.
  - rewrite incrementStageType_continues by done. state_simpl.
    destruct (advanceCursor (st, ty)) as [st' ty']. state_simpl.
    rewrite !loads_app, !commands_app. cbn. by rewrite ?app_nil_r.
Qed.

Lemma moveToNextFloor_load_or_restart_witness :
  let h := sample_host "A" sample_rooms in
  is_Some (mod_ (started h)) ∧
  loads (log (exec moveToNextFloor h (started h))) = [(1, 1)].
Proof.
  intros h. assert (is_Some (mod_ (started h))) as Hm by (by eexists).
  split; [done|].
  destruct (moveToNextFloor_load_or_restart h (started h) Hm) as (_ & _ & Hl & _).
  rewrite Hl. compute_done.
Defined.

Lemma getMaxStageType_nonneg st : 0 ≤ getMaxStageType st.
Proof.
  unfold getMaxStageType. unfold_enums.
  repeat match goal with |- context [?a =? ?b] => destruct (Z.eqb_spec a b) end;
    cbn [orb]; lia.
Qed.

Lemma nextStageType_cases ty :
  (int_add ty 1 = 3 ∧ nextStageType ty = 4) ∨
  (int_add ty 1 ≠ 3 ∧ nextStageType ty = int_add ty 1).
Proof.
  unfold nextStageType. unfold_enums.
  destruct (Z.eqb_spec (int_add ty 1) 3) as [->|Hne]; [left|right]; done.
Qed.

Lemma nextStage_cases st :
  (int_add st 1 = 9 ∧ nextStage st = 10) ∨
  (int_add st 1 = 13 ∧ nextStage st = 14) ∨
  (int_add st 1 ≠ 9 ∧ int_add st 1 ≠ 13 ∧ nextStage st = int_add st 1).
Proof.
  unfold nextStage. case_bool_decide as Hin; rewrite elem_of_STAGES_TO_SKIP in Hin.
  - destruct Hin as [->| ->]; [left|right; left]; done.
  - right; right. split_and!; [lia|lia|done].
Qed.

Lemma advanceCursor_bounds c :
  (advanceCursor c).2 ≠ StageType.STAGETYPE_GREEDMODE ∧
  (advanceCursor c).2 ≤ getMaxStageType (advanceCursor c).1 ∧
  ((advanceCursor c).1 ≠ c.1 →
     ((advanceCursor c).1 ∉ STAGES_TO_SKIP) ∧
     (advanceCursor c).1 < FINAL_STAGE ∧
     (advanceCursor c).2 = StageType.STAGETYPE_ORIGINAL).
Proof.
  destruct c as [st ty]. unfold advanceCursor. cbn [fst snd].
  pose proof (nextStageType_cases ty) as Hty.
  pose proof (nextStage_cases st) as Hst.
  pose proof (getMaxStageType_nonneg (nextStage st)) as Hmax.
  revert Hty Hst Hmax. generalize (nextStageType ty) (nextStage st) (int_add ty 1)
    (int_add st 1). intros nty nst t1 s1 Hty Hst Hmax. unfold_enums.
  rewrite (Z.gtb_ltb nty). destruct (Z.ltb_spec (getMaxStageType st) nty) as [Hgt|Hle];
    cbn [fst snd].
  - rewrite (Z.gtb_ltb nst). destruct (Z.ltb_spec 13 nst) as [Hgt'|Hle']; cbn [fst snd].
    + split_and!; [done|done|]. intros _. rewrite elem_of_STAGES_TO_SKIP. lia.
    + split_and!; [done|exact Hmax|]. intros _. rewrite elem_of_STAGES_TO_SKIP. lia.
  - split_and!; [lia|exact Hle|]. by intros [].
Qed.

(** X8: the advance repairs a bad cursor as far as one step can.  Whatever
    the stage and variant were, after [incrementStageType] the variant is
    not the Greed-mode ordinal and does not exceed the maximum of the stage
    reached; and when the stage changed, the new stage is not a skipped
    one, lies below the final stage, and the variant is the base one. *)
Theorem advance_from_any_cursor (h : Host) (s : State) :
  let s' := exec incrementStageType h s in
  recordingStageType s' ≠ StageType.STAGETYPE_GREEDMODE ∧
  recordingStageType s' ≤ getMaxStageType (recordingStage s') ∧
  (recordingStage s' ≠ recordingStage s →
     (recordingStage s' ∉ STAGES_TO_SKIP) ∧
     recordingStage s' < FINAL_STAGE ∧
     recordingStageType s' = StageType.STAGETYPE_ORIGINAL).
Proof.
  cbv zeta. pose proof (incrementStageType_cursor h s) as Hcur.
  pose proof (advanceCursor_bounds (cursor s)) as Hb.
  rewrite <- Hcur in Hb. exact Hb.
Qed.

Lemma advance_from_any_cursor_witness :
  let h := sample_host "A" sample_rooms in
  let s := set_recordingStageType 7 (set_recordingStage 8 (started h)) in
  recordingStage (exec incrementStageType h s) ≠ recordingStage s ∧
  cursor (exec incrementStageType h s) = (10, 0).
Proof.
  intros h s.
  assert (recordingStage (exec incrementStageType h s) ≠ recordingStage s) as Hne
    by compute_done.
  split; [exact Hne|].
  destruct (advance_from_any_cursor h s) as (_ & _ & H).
  destruct (H Hne) as (_ & _ & Hty).
  unfold cursor. rewrite Hty. compute_done.
Defined.


Lemma dot_free_digit d s : dot_free (String (pretty_N_char d) s) = dot_free s.
Proof. unfold pretty_N_char. by repeat case_match. Qed.

Lemma dot_free_pretty_N_go x s : dot_free s = true → dot_free (pretty_N_go x s) = true.
Proof.
  revert s. induction (N.lt_wf_0 x) as [x _ IH]; intros s Hs.
  destruct (decide (0 < x)%N) as [Hx|Hx].
  - rewrite pretty_N_go_step by done. apply IH.
    + by apply N.div_lt.
    + by rewrite dot_free_digit.
  - assert (x = 0%N) as -> by lia. by rewrite pretty_N_go_0.
Qed.

Lemma dot_free_tostring n : dot_free (tostring n) = true.
Proof.
  assert (∀ p, dot_free (pretty (N.pos p)) = true) as Hpos.
  { intros p. unfold pretty, pretty_N. rewrite decide_False by done.
    by apply dot_free_pretty_N_go. }
  unfold tostring. destruct n as [|p|p].
  - done.
  - apply Hpos.
  - change (pretty (Z.neg p)) with ("-" +:+ pretty (N.pos p)). cbn. apply Hpos.
Qed.

Lemma dot_separated a a' b b' :
  dot_free a = true → dot_free a' = true →
  a +:+ "." +:+ b = a' +:+ "." +:+ b' → a = a' ∧ b = b'.
Proof.
  revert a'. induction a as [|c a IH]; intros [|c' a'] Ha Ha' Heq; cbn in *.
  - injection Heq as Hb. by subst.
  - injection Heq as Hc _. subst c'. done.
  - injection Heq as Hc _. subst c. done.
  - injection Heq as Hc Heq. subst c'.
    apply andb_prop in Ha as [_ Ha]. apply andb_prop in Ha' as [_ Ha'].
    destruct (IH a' Ha Ha' Heq) as [-> ->]. done.
Qed.

(** X9: the floor key is unambiguous: two cursors get the same key
    "stage.variant" only if they are the same cursor, so floors of one
    seed never overwrite each other in its record. *)
Theorem floorsMapIndex_inj (st ty st' ty' : Z) :
  floorsMapIndex st ty = floorsMapIndex st' ty' → st = st' ∧ ty = ty'.
Proof.
  unfold floorsMapIndex. intros Heq.
  apply dot_separated in Heq as [Hst Hty]; [|apply dot_free_tostring..].
  split; by apply tostring_inj.
Qed.

Lemma floorsMapIndex_inj_witness :
  floorsMapIndex 1 12 = "1.12" ∧ floorsMapIndex 11 2 = "11.2" ∧
  (floorsMapIndex 1 12 = floorsMapIndex 11 2 → False).
Proof.
  split; [reflexivity|]. split; [reflexivity|].
  intros Heq. destruct (floorsMapIndex_inj _ _ _ _ Heq) as [Hst _]. discriminate Hst.
Defined.




Lemma cursor_key_valid c : valid_cursor c → cursor_key c ∈ traversal_keys.
Proof.
  intros Hv%valid_cursor_iff. unfold traversal_keys.
  apply elem_of_list_to_set. by apply list_elem_of_fmap_2.
Qed.

Lemma deref_keys ts r :
  Forall (λ t : gmap string (gmap string RoomData), dom t ⊆ traversal_keys) ts →
  dom (deref ts r) ⊆ traversal_keys.
Proof.
  intros Hall. unfold deref. destruct (ts !! r) as [t|] eqn:Ht; cbn.
  - rewrite Forall_forall in Hall. apply Hall. by apply list_elem_of_lookup_2 with r.
  - rewrite dom_empty_L. apply empty_subseteq.
Qed.

Lemma fire_tables_ok s h e : is_Some (mod_ s) → tables_ok s → tables_ok (fire s (h, e)).
Proof.
  intros Hm [Hv Hall].
  assert (dom (<[cursor_key (cursor s) := recordRooms (rooms h) ∅]>
                 (deref (tables s) (floorsMap s))) ⊆ traversal_keys) as Hins.
  { rewrite dom_insert_L. apply union_subseteq. split.
    - apply singleton_subseteq_l. by apply cursor_key_valid.
    - by apply deref_keys. }
  destruct (fire_fields s h e Hm) as
    [_ [(H1 & _ & _ & _ & H5)|[(H1 & _ & _ & _ & H5)|[(H1 & _ & _ & _ & H5 & _)|(H1 & _ & _ & _ & H5 & _)]]]];
    split; rewrite ?H1, ?H5; try done.
  - apply Forall_app. split; [done|]. apply Forall_singleton.
    rewrite dom_empty_L. apply empty_subseteq.
  - by apply advanceCursor_valid.
  - by apply Forall_insert.
  - by apply Forall_insert.
Qed.

Lemma run_tables_ok evs s : is_Some (mod_ s) → tables_ok s → tables_ok (run evs s).
Proof.
  revert s. induction evs as [|[h e] evs IH]; intros s Hm Hok; [done|].
  rewrite run_cons. apply IH.
  - destruct (fire_fields s h e Hm) as [Hmod _]. by rewrite Hmod.
  - by apply fire_tables_ok.
Qed.

(** X11: a seed's record never holds anything but floors of the traversal:
    at any point of a run, every record in the dataset has its keys among
    the 43 keys "stage.variant" of the valid cursors (none for stage 9 or
    13, none for variant 3), hence at most 43 entries. *)
Theorem records_within_traversal (h0 : Host) (evs : list (Host * Event))
    (seed : string) (fm : gmap string (gmap string RoomData)) :
  snapshot (run evs (started h0)) !! seed = Some fm →
  dom fm ⊆ traversal_keys ∧ (size fm ≤ 43)%nat ∧
  ∀ k, is_Some (fm !! k) → ∃ c, valid_cursor c ∧ k = floorsMapIndex c.1 c.2.
Proof.
  intros Hfm.
  destruct (run_tables_ok evs (started h0)) as [_ Hall].
  { apply started_registered. }
  { split; [apply valid_cursor_first|]. apply Forall_singleton.
    rewrite dom_empty_L. apply empty_subseteq. }
  rewrite snapshot_lookup in Hfm.
  destruct (seedsMap _ !! seed) as [r|]; [|done]. injection Hfm as <-.
  pose proof (deref_keys _ r Hall) as Hsub. split_and!.
  - exact Hsub.
  - rewrite <- size_dom. etrans; [apply subseteq_size, Hsub|].
    unfold traversal_keys. rewrite size_list_to_set by apply full_traversal_keys_NoDup.
    by rewrite length_fmap.
  - intros k Hk%elem_of_dom. apply Hsub in Hk. unfold traversal_keys in Hk.
    apply elem_of_list_to_set, list_elem_of_fmap in Hk as (c & -> & Hc).
    exists c. split; [by apply valid_cursor_iff|done].
Qed.

Lemma records_within_traversal_witness :
  let h0 := sample_host "A" sample_rooms in
  let evs := (h0, MC_POST_NEW_LEVEL) :: full_pass sample_rooms in
  ∃ fm : gmap string (gmap string RoomData),
    snapshot (run evs (started h0)) !! "A" = Some fm ∧ (size fm ≤ 43)%nat.
Proof.
  intros h0 evs.
  assert (is_Some (snapshot (run evs (started h0)) !! "A")) as [fm Hfm] by compute_done.
  exists fm. split; [exact Hfm|].
  destruct (records_within_traversal h0 evs "A" fm Hfm) as (_ & Hsize & _). exact Hsize.
Defined.


Lemma recordRooms_no_data descs (m : gmap string RoomData) :
  Forall (λ d, Data d = None) descs → recordRooms descs m = m.
Proof.
  induction 1 as [|d descs Hd _ IH]; [done|]. cbn [recordRooms]. by rewrite Hd.
Qed.

(** X12: a floor none of whose rooms has layout data (an empty room list
    among them) is still recorded: the seed's floors map gets an entry for
    the cursor, holding an empty rooms map. *)
Theorem floor_without_data_recorded (h : Host) (s : State) :
  Forall (λ d, Data d = None) (rooms h) →
  (floorsMap s < length (tables s))%nat →
  deref (tables (exec recordFloor h s)) (floorsMap s)
    !! floorsMapIndex (recordingStage s) (recordingStageType s) = Some ∅ ∧
  cursor (exec recordFloor h s) = cursor s ∧
  log (exec recordFloor h s) = log s.
Proof.
  intros Hnone Hlt. unfold exec. rewrite recordFloor_eq. cbn [snd].
  rewrite recordRooms_no_data by done. destruct s; state_simpl.
  rewrite deref_insert by done. by rewrite lookup_insert_eq.
Qed.

Lemma floor_without_data_recorded_witness :
  let h := sample_host "A" [ {| SafeGridIndex := 84; Data := None |} ] in
  (Forall (λ d, Data d = None) (rooms h) ∧
   (floorsMap (started h) < length (tables (started h)))%nat) ∧
  deref (tables (exec recordFloor h (started h))) 0 !! "1.0" = Some ∅.
Proof.
  intros h.
  assert (Forall (λ d, Data d = None) (rooms h)) as H1 by (by repeat constructor).
  assert ((floorsMap (started h) < length (tables (started h)))%nat) as H2 by (cbn; lia).
  split; [done|].
  destruct (floor_without_data_recorded h (started h) H1 H2) as [H _]. exact H.
Defined.

Lemma last_with_key_perm k descs descs' :
  descs ≡ₚ descs' → NoDup (SafeGridIndex <$> descs) →
  last_with_key k descs = last_with_key k descs'.
Proof.
  intros Hperm Hnd.
  assert (NoDup (SafeGridIndex <$> descs')) as Hnd' by (by rewrite <- Hperm).
  destruct (last_with_key k descs) as [x|] eqn:Hl.
  - apply last_with_key_Some in Hl as (d & data & Hin & Hd & -> & ->).
    symmetry. apply (last_with_key_unique _ _ d data); try done. by rewrite <- Hperm.
  - destruct (last_with_key k descs') as [x|] eqn:Hl'; [|done].
    apply last_with_key_Some in Hl' as (d & data & Hin & Hd & -> & _).
    destruct (last_with_key_None _ _ Hl d); [by rewrite Hperm| |done].
    unfold has_data. rewrite Hd. by eexists.
Qed.

(** X13: when the descriptors' position keys are pairwise distinct, the
    rooms map does not depend on the order in which [getRooms] lists the
    descriptors. *)
Theorem recordRooms_order_irrelevant (descs descs' : list RoomDescriptor) :
  descs ≡ₚ descs' → NoDup (SafeGridIndex <$> descs) →
  recordRooms descs ∅ = recordRooms descs' ∅.
Proof.
  intros Hperm Hnd. apply map_eq. intros k.
  by rewrite !recordRooms_lookup, (last_with_key_perm k descs descs').
Qed.

Lemma recordRooms_order_irrelevant_witness :
  (sample_rooms ≡ₚ reverse sample_rooms ∧ NoDup (SafeGridIndex <$> sample_rooms)) ∧
  recordRooms sample_rooms ∅ = recordRooms (reverse sample_rooms) ∅ ∧
  recordRooms colliding_rooms ∅ ≠ recordRooms (reverse colliding_rooms) ∅.
Proof.
  assert (sample_rooms ≡ₚ reverse sample_rooms) as Hp by (symmetry; apply reverse_Permutation).
  assert (NoDup (SafeGridIndex <$> sample_rooms)) as Hnd by compute_done.
  split; [done|]. split.
  - exact (recordRooms_order_irrelevant _ _ Hp Hnd).
  - compute_done.
Defined.

(** X14: which diagnostic an ineligible run gets: the checks are made in
    the order continuation, set seed, difficulty, challenge, character, and
    the first that fails decides the message; the handler then stops, with
    no seed effect added, no restart scheduled and no floor loaded. *)
Theorem first_failed_check_reported (continued : bool) (h : Host) (s : State) :
  let r := result (postGameStarted continued) h s in
  let s' := exec (postGameStarted continued) h s in
  (continued = true →
     r = Throw "The isaac-floor-recorder mod will not work when continuing a run.") ∧
  (continued = false → setSeed h = true →
     r = Throw "The isaac-floor-recorder mod will not work on set seeds.") ∧
  (continued = false → setSeed h = false →
   difficulty h ≠ Difficulty.DIFFICULTY_NORMAL →
     r = Throw "The isaac-floor-recorder mod will not work on non-normal difficulties.") ∧
  (continued = false → setSeed h = false →
   difficulty h = Difficulty.DIFFICULTY_NORMAL →
   challenge h ≠ Challenge.CHALLENGE_NULL →
     r = Throw "The isaac-floor-recorder mod will not work on challenges.") ∧
  (continued = false → setSeed h = false →
   difficulty h = Difficulty.DIFFICULTY_NORMAL →
   challenge h = Challenge.CHALLENGE_NULL →
   character h ≠ PlayerType.PLAYER_ISAAC →
     r = Throw "The isaac-floor-recorder mod will not work on characters other than Isaac.") ∧
  ((∃ msg, r = Throw msg) →
     restart s' = restart s ∧ loads (log s') = loads (log s) ∧
     AddSeedEffectPreventAllCurses ∉ drop (length (log s)) (log s')).
Proof.
  cbv zeta. unfold result, exec. rewrite postGameStarted_eq. cbv zeta.
  rewrite validateRun_eq. unfold ineligible_message. split_and!.
  - by intros ->.
  - by intros -> ->.
  - intros -> -> Hd. by rewrite (proj2 (Z.eqb_neq _ _) Hd).
  - intros -> -> Hd Hc. by rewrite Hd, (proj2 (Z.eqb_neq _ _) Hc).
  - intros -> -> Hd Hc Hp. by rewrite Hd, Hc, (proj2 (Z.eqb_neq _ _) Hp).
  - fold (ineligible_message continued h).
    destruct (ineligible_message continued h) as [msg|].
    + intros _. destruct s; state_simpl. rewrite loads_app, drop_app_length. cbn.
      rewrite app_nil_r. split_and!; try done. by intros [[=]|[]%elem_of_nil]%elem_of_cons.
    + destruct (preventAllCurses h); by intros [msg [=]].
Qed.

Lemma first_failed_check_reported_witness :
  let h := {| startSeedString := "A"; rooms := []; stage := 1; stageType := 0;
              setSeed := true; difficulty := Difficulty.DIFFICULTY_HARD;
              challenge := 0; character := PlayerType.PLAYER_MAGDALENE;
              preventAllCurses := false |} in
  setSeed h = true ∧
  result (postGameStarted false) h (started h)
    = Throw "The isaac-floor-recorder mod will not work on set seeds." ∧
  restart (exec (postGameStarted false) h (started h)) = false.
Proof.
  intros h. split; [reflexivity|].
  destruct (first_failed_check_reported false h (started h)) as (_ & H & _ & _ & _ & Hf).
  pose proof (H eq_refl eq_refl) as Hr. split; [exact Hr|].
  destruct Hf as (Hrs & _); [by eexists|]. exact Hrs.
Defined.


Lemma run_commands_no_render evs s :
  Forall (λ ev : Host * Event, ev.2 ≠ MC_POST_RENDER) evs →
  commands (log (run evs s)) = commands (log s).
Proof.
  revert s. induction evs as [|[h e] evs IH]; intros s Hall; [done|].
  apply Forall_cons in Hall as [He Hall]. rewrite run_cons, IH by done.
  by apply fire_commands.
Qed.

Lemma arrivals_no_render hs :
  Forall (λ ev : Host * Event, ev.2 ≠ MC_POST_RENDER) (arrivals hs).
Proof. unfold arrivals. apply Forall_fmap, Forall_true. by intros h. Qed.

Lemma postNewLevel_skip_fields h s :
  Some (startSeedString h) ≠ currentStartSeedString s →
  let s' := exec postNewLevel h s in
  mod_ s' = mod_ s ∧ cursor s' = cursor s ∧ tables s' = tables s ∧
  floorsMap s' = floorsMap s ∧ seedsMap s' = seedsMap s ∧
  seedsMapSize s' = seedsMapSize s ∧ restart s' = restart s ∧
  currentStartSeedString s' = Some (startSeedString h).
Proof. intros Hne. cbv zeta. unfold exec. rewrite postNewLevel_skip by done. by destruct s. Qed.

Lemma postGameStarted_eligible_fields h s :
  eligible false h → preventAllCurses h = true →
  let s' := exec (postGameStarted false) h s in
  mod_ s' = mod_ s ∧ cursor s' = cursor s ∧ tables s' = tables s ++ [∅] ∧
  floorsMap s' = length (tables s) ∧ seedsMap s' = seedsMap s ∧
  seedsMapSize s' = seedsMapSize s ∧ restart s' = restart s ∧
  currentStartSeedString s' = currentStartSeedString s.
Proof.
  intros Hel Hp. cbv zeta. unfold exec. rewrite postGameStarted_eq. cbv zeta.
  rewrite validateRun_eq, (proj2 (ineligible_message_None _ _) Hel), Hp. by destruct s.
Qed.

Lemma seed_cycle_unfold h hs s :
  run (seed_cycle h hs) s =
    exec postRender h
      (run (arrivals hs) (exec (postGameStarted false) h (exec postNewLevel h s))).
Proof. unfold seed_cycle. by rewrite !run_cons, run_app. Qed.

(** One seed, start to restart. *)
Lemma seed_cycle_run h hs s :
  good_cycle (h, hs) → is_Some (mod_ s) → store_ok s →
  cursor s = (LevelStage.STAGE1_1, StageType.STAGETYPE_ORIGINAL) →
  currentStartSeedString s ≠ Some (startSeedString h) →
  let s' := run (seed_cycle h hs) s in
  is_Some (mod_ s') ∧ store_ok s' ∧
  cursor s' = (LevelStage.STAGE1_1, StageType.STAGETYPE_ORIGINAL) ∧
  currentStartSeedString s' = Some (startSeedString h) ∧
  restart s' = false ∧
  seedsMapSize s' = int_add (seedsMapSize s) 1 ∧
  snapshot s' = <[startSeedString h := record_pass full_traversal hs ∅]> (snapshot s) ∧
  commands (log s') = commands (log s) ++ ["restart"].
Proof.
  intros (Hel & Hp & Hlen & Hall) Hm [Hf Hs] Hcur Hseed. cbn [fst snd] in *. cbv zeta.
  rewrite seed_cycle_unfold.
  destruct (postNewLevel_skip_fields h s) as (A1 & A2 & A3 & A4 & A5 & A6 & A7 & A8);
    [by intros Heq|].
  pose proof (fire_commands h MC_POST_NEW_LEVEL s) as Ac. rewrite fire_arrival in Ac.
  set (s1 := exec postNewLevel h s) in *.
  destruct (postGameStarted_eligible_fields h s1 Hel Hp)
    as (B1 & B2 & B3 & B4 & B5 & B6 & B7 & B8).
  pose proof (fire_commands h (MC_POST_GAME_STARTED false) s1) as Bc.
  change (fire s1 (h, MC_POST_GAME_STARTED false))
    with (exec (postGameStarted false) h s1) in Bc.
  set (s2 := exec (postGameStarted false) h s1) in *.
  assert (is_Some (mod_ s2)) as Hm2 by (by rewrite B1, A1).
  destruct (arrivals_pass 43 _ full_traversal hs s2 (startSeedString h) cursor_path_full)
    as (G1 & G2 & G3 & G4 & G5 & G6 & _ & G8).
  { by rewrite Hlen. } { by rewrite B2, A2. } { by rewrite B8, A8. } { done. } { done. }
  { rewrite B4, B3, length_app. cbn. lia. }
  pose proof (run_registered (arrivals hs) s2 Hm2) as Hm3.
  pose proof (run_commands_no_render (arrivals hs) s2 (arrivals_no_render hs)) as Gc.
  set (s3 := run (arrivals hs) s2) in *.
  assert (deref (tables s2) (floorsMap s2) = ∅) as Hnew.
  { unfold deref. by rewrite B3, B4, lookup_app_r, Nat.sub_diag. }
  rewrite Hnew, B3, B4, A3 in G2. rewrite B4, A3 in G3. rewrite B4, B5, A3, A5 in G4.
  rewrite B6, A6 in G5. rewrite B8, A8 in G8. rewrite Bc, Ac in Gc; [|done..].
  unfold exec. rewrite postRender_eq, G6. cbn [snd].
  assert (length (tables s3) = S (length (tables s))) as Hlen3.
  { rewrite G2, length_insert, length_app. cbn. lia. }
  split_and!.
  - by destruct s3.
  - split.
    + destruct s3; state_simpl. rewrite Hlen3, G3. lia.
    + intros seed r'. destruct s3; state_simpl. rewrite G4, Hlen3.
      destruct (decide (startSeedString h = seed)) as [<-|Hne].
      * rewrite lookup_insert_eq. intros [= <-]. lia.
      * rewrite lookup_insert_ne by done. intros Hr'. specialize (Hs seed r' Hr'). lia.
  - by destruct s3.
  - by destruct s3.
  - by destruct s3.
  - by destruct s3.
  - transitivity (snapshot s3); [by destruct s3|].
    unfold snapshot. rewrite G4, G2, fmap_insert. f_equal.
    + rewrite deref_insert; [done|]. rewrite length_app. cbn. lia.
    + apply map_fmap_ext. intros seed r' Hr'. specialize (Hs seed r' Hr').
      rewrite deref_insert_ne by lia. by apply deref_app.
  - destruct s3; state_simpl. by rewrite commands_app, Gc.
Qed.


Lemma cycles_cons c cs : cycles (c :: cs) = seed_cycle c.1 c.2 ++ cycles cs.
Proof. reflexivity. Qed.

Lemma fold_cycles_cons c cs d :
  fold_cycles (c :: cs) d =
    fold_cycles cs (<[cycle_seed c := record_pass full_traversal c.2 ∅]> d).
Proof. reflexivity. Qed.

Lemma fold_cycles_dom cs d :
  dom (fold_cycles cs d) = dom d ∪ list_to_set (cycle_seed <$> cs).
Proof.
  revert d. induction cs as [|c cs IH]; intros d.
  - cbn. set_solver.
  - rewrite fold_cycles_cons, IH, dom_insert_L. cbn [fmap list_fmap].
    rewrite list_to_set_cons. set_solver.
Qed.

Lemma fold_cycles_lookup_ne cs d seed :
  seed ∉ cycle_seed <$> cs → fold_cycles cs d !! seed = d !! seed.
Proof.
  revert d. induction cs as [|c cs IH]; intros d Hnotin; [done|].
  cbn [fmap list_fmap] in Hnotin. apply not_elem_of_cons in Hnotin as [Hne Hnotin].
  rewrite fold_cycles_cons, IH by done. by rewrite lookup_insert_ne.
Qed.

Lemma fold_cycles_lookup cs d c :
  NoDup (cycle_seed <$> cs) → c ∈ cs →
  fold_cycles cs d !! cycle_seed c = Some (record_pass full_traversal c.2 ∅).
Proof.
  revert d. induction cs as [|c0 cs IH]; intros d Hnd Hin; [by inv Hin|].
  cbn [fmap list_fmap] in Hnd. apply NoDup_cons in Hnd as [Hnotin Hnd].
  rewrite fold_cycles_cons. inv Hin.
  - rewrite fold_cycles_lookup_ne by done. by rewrite lookup_insert_eq.
  - by apply IH.
Qed.

Lemma record_pass_size hs :
  length hs = 43%nat → size (record_pass full_traversal hs ∅) = 43%nat.
Proof.
  intros Hlen. rewrite <- size_dom, record_pass_dom by done.
  rewrite dom_empty_L, (left_id_L ∅ (∪)).
  rewrite size_list_to_set by apply full_traversal_keys_NoDup.
  by rewrite length_fmap.
Qed.

Lemma arrivals_folds fuel :
  ∀ c cs hs s seed,
    cursor_path fuel c = Some cs → length hs = length cs →
    cursor s = c → currentStartSeedString s = Some seed →
    Forall (λ h, startSeedString h = seed) hs →
    folds (arrivals hs) s = 1%nat.
Proof.
  induction fuel as [|fuel IH]; intros c cs hs s seed Hpath Hlen Hcur Hseed Hall; [done|].
  rewrite cursor_path_S in Hpath. destruct (completes c) eqn:Hc.
  - injection Hpath as <-. destruct hs as [|h [|h' hs]]; try done.
    apply Forall_cons in Hall as [Hh _]. subst seed c.
    rewrite arrivals_cons, folds_cons. cbn [fst snd folds arrivals fmap list_fmap].
    unfold fold_completed, records_floor. by rewrite bool_decide_eq_true_2, Hc.
  - destruct (cursor_path fuel (advanceCursor c)) as [cs'|] eqn:Hp; [|done].
    injection Hpath as <-. destruct hs as [|h hs]; [done|].
    apply Forall_cons in Hall as [Hh Hall]. subst seed c.
    rewrite arrivals_cons, folds_cons, fire_arrival. cbn [fst snd].
    unfold fold_completed at 1. rewrite Hc, andb_false_r.
    destruct (postNewLevel_continue h s Hseed Hc) as (H1 & _ & _ & _ & _ & _ & H7 & _).
    apply (IH _ cs' hs _ (startSeedString h) Hp); try done.
    + cbn in Hlen. lia.
    + by rewrite H7.
Qed.

Lemma seed_cycle_folds h hs s :
  good_cycle (h, hs) → is_Some (mod_ s) →
  cursor s = (LevelStage.STAGE1_1, StageType.STAGETYPE_ORIGINAL) →
  currentStartSeedString s ≠ Some (startSeedString h) →
  folds (seed_cycle h hs) s = 1%nat.
Proof.
  intros (Hel & Hp & Hlen & Hall) Hm Hcur Hseed. cbn [fst snd] in *.
  unfold seed_cycle. rewrite !folds_cons, folds_app. cbn [fst snd].
  unfold fold_completed at 1 2. cbn [records_floor andb].
  rewrite bool_decide_eq_false_2 by done. cbn [andb].
  change (fire s (h, MC_POST_NEW_LEVEL)) with (exec postNewLevel h s).
  destruct (postNewLevel_skip_fields h s) as (A1 & A2 & _ & _ & _ & _ & _ & A8);
    [by intros Heq|].
  set (s1 := exec postNewLevel h s) in *.
  change (fire s1 (h, MC_POST_GAME_STARTED false))
    with (exec (postGameStarted false) h s1).
  destruct (postGameStarted_eligible_fields h s1 Hel Hp)
    as (B1 & B2 & _ & _ & _ & _ & _ & B8).
  set (s2 := exec (postGameStarted false) h s1) in *.
  rewrite (arrivals_folds 43 _ full_traversal hs s2 (startSeedString h) cursor_path_full);
    [|by rewrite Hlen|by rewrite B2, A2|by rewrite B8, A8|done].
  cbn [folds fst snd]. unfold fold_completed. cbn [records_floor andb]. done.
Qed.

Lemma cycles_run cs :
  ∀ s, is_Some (mod_ s) → store_ok s →
    cursor s = (LevelStage.STAGE1_1, StageType.STAGETYPE_ORIGINAL) →
    Forall good_cycle cs → NoDup (cycle_seed <$> cs) →
    (∀ c, c ∈ cs → currentStartSeedString s ≠ Some (cycle_seed c)) →
    let s' := run (cycles cs) s in
    is_Some (mod_ s') ∧
    cursor s' = (LevelStage.STAGE1_1, StageType.STAGETYPE_ORIGINAL) ∧
    folds (cycles cs) s = length cs ∧
    snapshot s' = fold_cycles cs (snapshot s) ∧
    commands (log s') = commands (log s) ++ replicate (length cs) "restart" ∧
    (cs ≠ [] → restart s' = false).
Proof.
  induction cs as [|[h hs] cs IH]; intros s Hm Hok Hcur Hgood Hnd Hcs.
  { cbv zeta. change (run (cycles []) s) with s. cbn [length replicate].
    rewrite app_nil_r. split_and!; done. }
  apply Forall_cons in Hgood as [Hg Hgood].
  cbn [fmap list_fmap] in Hnd. apply NoDup_cons in Hnd as [Hnotin Hnd].
  cbv zeta. rewrite cycles_cons, run_app. cbn [fst snd].
  destruct (seed_cycle_run h hs s Hg Hm Hok Hcur) as (A1 & A2 & A3 & A4 & A5 & A6 & A7 & A8).
  { apply (Hcs (h, hs)). by left. }
  set (s1 := run (seed_cycle h hs) s) in *.
  destruct (IH s1 A1 A2 A3 Hgood Hnd) as (B1 & B2 & B3 & B4 & B5 & B6).
  { intros c Hc. rewrite A4. intros [= Heq]. apply Hnotin.
    change (cycle_seed (h, hs)) with (startSeedString h). rewrite Heq.
    by apply list_elem_of_fmap_2. }
  split_and!.
  - done.
  - done.
  - rewrite folds_app. fold s1. rewrite B3, (seed_cycle_folds h hs s Hg Hm Hcur).
    + done.
    + apply (Hcs (h, hs)). by left.
  - by rewrite B4, A7.
  - rewrite B5, A8, <- app_assoc. done.
  - intros _. destruct cs as [|c cs]; [exact A5|]. by apply B6.
Qed.

(** X15: seeds accumulate.  When the game delivers, for each of a list of
    pairwise different seeds, the events of one eligible run (first-floor
    arrival, game start, the 43 floor arrivals, a render tick), the dataset
    ends up with exactly one record per seed, each with 43 floors holding
    what was seen at the arrivals, and one restart was issued per seed; the
    counter is the number of seeds on the 64-bit integers.  For fewer than
    2^63 seeds the counter equals the number of seeds and a durable write
    was made for every hundredth seed. *)
Theorem seeds_accumulate (h0 : Host) (cs : list (Host * list Host)) :
  Forall good_cycle cs → NoDup (cycle_seed <$> cs) →
  let s := run (cycles cs) (started h0) in
  seedsMapSize s = wrap (Z.of_nat (length cs)) ∧
  dom (snapshot s) = list_to_set (cycle_seed <$> cs) ∧
  size (snapshot s) = length cs ∧
  (∀ c, c ∈ cs →
     snapshot s !! cycle_seed c = Some (record_pass full_traversal c.2 ∅) ∧
     size (record_pass full_traversal c.2 ∅) = 43%nat) ∧
  commands (log s) = replicate (length cs) "restart" ∧
  (Z.of_nat (length cs) ≤ math_maxinteger →
     seedsMapSize s = Z.of_nat (length cs) ∧
     Z.of_nat (length (saves (log s))) =
       Z.of_nat (length cs) / NUMBER_OF_SEEDS_BEFORE_WRITING_TO_DISK) ∧
  cursor s = (LevelStage.STAGE1_1, StageType.STAGETYPE_ORIGINAL).
Proof.
  intros Hgood Hnd. cbv zeta.
  destruct (cycles_run cs (started h0) (started_registered h0) (started_store_ok h0)
              eq_refl Hgood Hnd) as (B1 & B2 & B3 & B4 & B5 & _).
  { by intros c _. }
  assert (snapshot (started h0) = ∅) as Hempty by done.
  rewrite Hempty in B4.
  assert (dom (snapshot (run (cycles cs) (started h0)))
          = list_to_set (cycle_seed <$> cs)) as Hdom.
  { by rewrite B4, fold_cycles_dom, dom_empty_L, (left_id_L ∅ (∪)). }
  split_and!.
  - rewrite run_folds_wrap by (apply started_registered || done). by rewrite B3.
  - exact Hdom.
  - rewrite <- size_dom, Hdom, size_list_to_set by done. by rewrite length_fmap.
  - intros c Hc. split.
    + rewrite B4. by apply fold_cycles_lookup.
    + apply record_pass_size. rewrite Forall_forall in Hgood.
      by destruct (Hgood c Hc) as (_ & _ & Hlen & _).
  - by rewrite B5.
  - intros Hb. destruct (run_folds (cycles cs) (started h0)) as [Hsz Hlen];
      [apply started_registered|done|by rewrite B3|].
    rewrite B3 in Hsz. change (seedsMapSize (started h0)) with 0 in Hsz.
    rewrite Z.add_0_l in Hsz. split; [exact Hsz|]. rewrite <- Hsz. by apply Hlen.
  - exact B2.
Qed.

Lemma seeds_accumulate_witness :
  let hA := sample_host "A" sample_rooms in
  let hB := sample_host "B" other_rooms in
  let cs := [(hA, replicate 43 hA); (hB, replicate 43 hB)] in
  (Forall good_cycle cs ∧ NoDup (cycle_seed <$> cs) ∧
   Z.of_nat (length cs) ≤ math_maxinteger) ∧
  seedsMapSize (run (cycles cs) (started hA)) = 2 ∧
  size (snapshot (run (cycles cs) (started hA))) = 2%nat ∧
  commands (log (run (cycles cs) (started hA))) = ["restart"; "restart"].
Proof.
  intros hA hB cs.
  assert (∀ h, eligible false h → preventAllCurses h = true →
               good_cycle (h, replicate 43 h)) as Hone.
  { intros h He Hp. unfold good_cycle. cbn [fst snd]. split; [exact He|].
    split; [exact Hp|]. split; [apply length_replicate|].
    apply Forall_replicate. reflexivity. }
  assert (eligible false hA ∧ eligible false hB) as [HeA HeB] by (by repeat split).
  assert (Forall good_cycle cs) as Hgood.
  { constructor; [by apply Hone|]. constructor; [by apply Hone|]. constructor. }
  assert (NoDup (cycle_seed <$> cs)) as Hnd by compute_done.
  assert (Z.of_nat (length cs) ≤ math_maxinteger) as Hb by (by vm_compute).
  split; [exact (conj Hgood (conj Hnd Hb))|].
  destruct (seeds_accumulate hA cs Hgood Hnd) as (_ & _ & H3 & _ & H5 & H6 & _).
  split; [exact (proj1 (H6 Hb))|]. split; [exact H3|exact H5].
Defined.


Lemma postGameStarted_mitigation h s :
  eligible false h → preventAllCurses h = false →
  exec (postGameStarted false) h s =
    set_log (log s ++ [start_message h; AddSeedEffectPreventAllCurses;
                       DebugString "Disabling curses and restarting the run."])
      (set_restart true s).
Proof.
  intros Hel Hp. unfold exec. rewrite postGameStarted_eq. cbv zeta.
  rewrite validateRun_eq, (proj2 (ineligible_message_None _ _) Hel), Hp.
  destruct s; state_simpl. by rewrite <- app_assoc.
Qed.

Lemma postGameStarted_eligible h s :
  eligible false h → preventAllCurses h = true →
  exec (postGameStarted false) h s =
    set_log (log s ++ [start_message h; GoToStage (recordingStage s) (recordingStageType s)])
      (set_floorsMap (length (tables s)) (set_tables (tables s ++ [∅]) s)).
Proof.
  intros Hel Hp. unfold exec. rewrite postGameStarted_eq. cbv zeta.
  rewrite validateRun_eq, (proj2 (ineligible_message_None _ _) Hel), Hp.
  destruct s; state_simpl. by rewrite <- app_assoc.
Qed.

Lemma started_eq h :
  started h =
    {| mod_ := Some {| Name := MOD_NAME; ApiVersion := 1 |};
       currentStartSeedString := None;
       restart := false;
       recordingStage := LevelStage.STAGE1_1;
       recordingStageType := StageType.STAGETYPE_ORIGINAL;
       floorsMap := 0%nat;
       seedsMap := ∅;
       seedsMapSize := 0;
       tables := [∅];
       log := [] |}.
Proof. reflexivity. Qed.

(** X16: the first two attempts of a session.  A first eligible run
    without curse suppression records nothing: the seed effect is added,
    the restart is scheduled and the next render tick issues it once.  The
    run that follows, on another seed and with curses suppressed, starts
    with an empty floors map and loads the first floor; its first-floor
    arrival before the game start is ignored, and the arrival after the
    load records floor "1.0" and loads (1, 1).  The dataset stays empty
    throughout. *)
Theorem mitigation_then_recording (h0 h1 h2 : Host) :
  eligible false h1 → preventAllCurses h1 = false →
  eligible false h2 → preventAllCurses h2 = true →
  startSeedString h2 ≠ startSeedString h1 →
  let s1 := run [(h1, MC_POST_NEW_LEVEL); (h1, MC_POST_GAME_STARTED false)] (started h0) in
  let s2 := fire s1 (h1, MC_POST_RENDER) in
  let s3 := run [(h2, MC_POST_NEW_LEVEL); (h2, MC_POST_GAME_STARTED false)] s2 in
  let s4 := fire s3 (h2, MC_POST_NEW_LEVEL) in
  (restart s1 = true ∧ AddSeedEffectPreventAllCurses ∈ log s1 ∧
   loads (log s1) = [] ∧ commands (log s1) = [] ∧ tables s1 = [∅]) ∧
  (restart s2 = false ∧ commands (log s2) = ["restart"]) ∧
  (loads (log s3) = [(1, 0)] ∧ deref (tables s3) (floorsMap s3) = ∅ ∧
   restart s3 = false ∧ snapshot s3 = ∅) ∧
  (deref (tables s4) (floorsMap s4) = {[ "1.0" := recordRooms (rooms h2) ∅ ]} ∧
   loads (log s4) = [(1, 0); (1, 1)] ∧ cursor s4 = (1, 1) ∧ snapshot s4 = ∅).
Proof.
  intros He1 Hp1 He2 Hp2 Hseed. cbv zeta.
  set (m := {| Name := MOD_NAME; ApiVersion := 1 |}).
  assert (run [(h1, MC_POST_NEW_LEVEL); (h1, MC_POST_GAME_STARTED false)] (started h0) =
          mkState (Some m) (Some (startSeedString h1)) true 1 0 0%nat ∅ 0 [∅]
            [arrival_message h1; start_message h1; AddSeedEffectPreventAllCurses;
             DebugString "Disabling curses and restarting the run."]) as E1.
  { rewrite !run_cons. change (run [] ?x) with x. rewrite fire_arrival, started_eq.
    unfold exec at 1. rewrite postNewLevel_skip by done. state_simpl.
    change (fire ?s (?h, MC_POST_GAME_STARTED false))
      with (exec (postGameStarted false) h s).
    by rewrite postGameStarted_mitigation. }
  rewrite E1. clear E1.
  match goal with |- context [fire ?s (h1, MC_POST_RENDER)] =>
    assert (fire s (h1, MC_POST_RENDER) =
            mkState (Some m) (Some (startSeedString h1)) false 1 0 0%nat ∅ 0 [∅]
              [arrival_message h1; start_message h1; AddSeedEffectPreventAllCurses;
               DebugString "Disabling curses and restarting the run.";
               ExecuteCommand "restart"]) as E2
      by (rewrite fire_render; unfold exec; by rewrite postRender_eq)
  end.
  rewrite E2. clear E2.
  match goal with |- context [run ?evs ?s] =>
    assert (run evs s =
            mkState (Some m) (Some (startSeedString h2)) false 1 0 1%nat ∅ 0 [∅; ∅]
              [arrival_message h1; start_message h1; AddSeedEffectPreventAllCurses;
               DebugString "Disabling curses and restarting the run.";
               ExecuteCommand "restart"; arrival_message h2; start_message h2;
               GoToStage 1 0]) as E3
  end.
  { rewrite !run_cons. change (run [] ?x) with x. rewrite fire_arrival.
    unfold exec at 1. rewrite postNewLevel_skip by (cbn; congruence). state_simpl.
    change (fire ?s (?h, MC_POST_GAME_STARTED false))
      with (exec (postGameStarted false) h s).
    by rewrite postGameStarted_eligible. }
  rewrite E3. clear E3.
  match goal with |- context [fire ?s (h2, MC_POST_NEW_LEVEL)] =>
    assert (fire s (h2, MC_POST_NEW_LEVEL) =
            mkState (Some m) (Some (startSeedString h2)) false 1 1 1%nat ∅ 0
              [∅; {[ "1.0" := recordRooms (rooms h2) ∅ ]}]
              [arrival_message h1; start_message h1; AddSeedEffectPreventAllCurses;
               DebugString "Disabling curses and restarting the run.";
               ExecuteCommand "restart"; arrival_message h2; start_message h2;
               GoToStage 1 0; arrival_message h2;
               DebugString "Going to stage: 1.1"; GoToStage 1 1]) as E4
  end.
  { rewrite fire_arrival. unfold exec. rewrite postNewLevel_eq. cbv zeta. state_simpl.
    rewrite bool_decide_eq_false_2 by (by intros []).
    rewrite recordFloor_eq. state_simpl.
    rewrite moveToNextFloor_eq, incrementStageType_continues by compute_done.
    state_simpl. replace (advanceCursor (1, 0)) with (1, 1) by compute_done.
    reflexivity. }
  rewrite E4. clear E4.
  split_and!; try reflexivity.
  do 2 right. left.
Qed.


Lemma mitigation_then_recording_witness :
  let h1 := {| startSeedString := "A"; rooms := sample_rooms; stage := 1; stageType := 2;
               setSeed := false; difficulty := 0; challenge := 0; character := 0;
               preventAllCurses := false |} in
  let h2 := sample_host "B" other_rooms in
  (eligible false h1 ∧ preventAllCurses h1 = false ∧ eligible false h2 ∧
   preventAllCurses h2 = true ∧ startSeedString h2 ≠ startSeedString h1) ∧
  commands (log (fire (run [(h1, MC_POST_NEW_LEVEL); (h1, MC_POST_GAME_STARTED false)]
                         (started h1)) (h1, MC_POST_RENDER))) = ["restart"].
Proof.
  intros h1 h2.
  assert (eligible false h1) as He1 by (by repeat split).
  assert (preventAllCurses h1 = false) as Hp1 by reflexivity.
  assert (eligible false h2) as He2 by (by repeat split).
  assert (preventAllCurses h2 = true) as Hp2 by reflexivity.
  assert (startSeedString h2 ≠ startSeedString h1) as Hne by discriminate.
  split; [exact (conj He1 (conj Hp1 (conj He2 (conj Hp2 Hne))))|].
  destruct (mitigation_then_recording h1 h1 h2 He1 Hp1 He2 Hp2 Hne) as (_ & [_ H] & _).
  exact H.
Defined.

(** X17: a floor is filed under the cursor it arrived on.  On an arrival of
    the remembered seed the rooms are stored under the key of the cursor as
    it was before the advance, every other floor of the floors map and
    every other table stay as they were, and only then does the cursor
    move on. *)
Theorem arrival_filed_under_arrival_cursor (h : Host) (s : State) :
  is_Some (mod_ s) →
  (floorsMap s < length (tables s))%nat →
  currentStartSeedString s = Some (startSeedString h) →
  let s' := exec postNewLevel h s in
  let fm := deref (tables s) (floorsMap s) in
  let fm' := deref (tables s') (floorsMap s) in
  fm' !! floorsMapIndex (recordingStage s) (recordingStageType s)
    = Some (recordRooms (rooms h) ∅) ∧
  (∀ k, k ≠ floorsMapIndex (recordingStage s) (recordingStageType s) →
        fm' !! k = fm !! k) ∧
  (∀ r, r ≠ floorsMap s → deref (tables s') r = deref (tables s) r) ∧
  floorsMap s' = floorsMap s ∧
  cursor s' = advanceCursor (cursor s).
Proof.
  intros Hm Hlt Hseed. cbv zeta.
  assert (tables (exec postNewLevel h s) =
            <[floorsMap s := <[cursor_key (cursor s) := recordRooms (rooms h) ∅]>
                               (deref (tables s) (floorsMap s))]> (tables s) ∧
          floorsMap (exec postNewLevel h s) = floorsMap s ∧
          cursor (exec postNewLevel h s) = advanceCursor (cursor s)) as (Ht & Hf & Hc).
  { destruct (completes (cursor s)) eqn:Hcomp.
    - destruct (postNewLevel_complete h s Hseed Hcomp Hm) as (H1 & H2 & H3 & _).
      split; [done|]. split; [done|]. rewrite H1.
      revert Hcomp. unfold completes, advanceCursor.
      by intros [-> ->]%andb_prop.
    - by destruct (postNewLevel_continue h s Hseed Hcomp) as (H1 & H2 & H3 & _). }
  rewrite Ht. split_and!; try done.
  - rewrite deref_insert by done. apply lookup_insert_eq.
  - intros k Hk. rewrite deref_insert by done. by apply lookup_insert_ne.
  - intros r Hr. by apply deref_insert_ne.
Qed.

Lemma arrival_filed_under_arrival_cursor_witness :
  let h := sample_host "A" sample_rooms in
  let s := exec (postGameStarted false) h seed_remembered in
  (is_Some (mod_ s) ∧ (floorsMap s < length (tables s))%nat ∧
   currentStartSeedString s = Some (startSeedString h)) ∧
  deref (tables (exec postNewLevel h s)) 1 !! "1.0" = Some (recordRooms sample_rooms ∅) ∧
  cursor (exec postNewLevel h s) = (1, 1).
Proof.
  intros h s.
  assert (is_Some (mod_ s)) as H1 by compute_done.
  assert ((floorsMap s < length (tables s))%nat) as H2 by compute_done.
  assert (currentStartSeedString s = Some (startSeedString h)) as H3 by reflexivity.
  split; [exact (conj H1 (conj H2 H3))|].
  destruct (arrival_filed_under_arrival_cursor h s H1 H2 H3) as (Hk & _ & _ & _ & Hc).
  split; [exact Hk|]. rewrite Hc. compute_done.
Defined.

(** X18: a run on the seed that is already remembered loses its first
    floor.  The arrival that precedes the game start is then taken for a
    floor of the traversal: it is recorded into the floors map of the
    previous run and advances the cursor, so that the game start, which
    resets the floors map but not the cursor, loads (1, 1); floor "1.0" is
    absent from the new floors map. *)
Theorem repeated_seed_skips_first_floor (h : Host) (s : State) :
  is_Some (mod_ s) →
  (floorsMap s < length (tables s))%nat →
  cursor s = (LevelStage.STAGE1_1, StageType.STAGETYPE_ORIGINAL) →
  currentStartSeedString s = Some (startSeedString h) →
  eligible false h → preventAllCurses h = true →
  let s' := run [(h, MC_POST_NEW_LEVEL); (h, MC_POST_GAME_STARTED false)] s in
  cursor s' = (1, 1) ∧
  last (log s') = Some (GoToStage 1 1) ∧
  deref (tables s') (floorsMap s') = ∅ ∧
  deref (tables s') (floorsMap s) !! "1.0" = Some (recordRooms (rooms h) ∅).
Proof.
  intros Hm Hlt Hcur Hseed Hel Hp. cbv zeta.
  rewrite !run_cons. change (run [] ?x) with x. rewrite fire_arrival.
  change (fire ?s0 (?h0, MC_POST_GAME_STARTED false))
    with (exec (postGameStarted false) h0 s0).
  assert (completes (cursor s) = false) as Hc by (rewrite Hcur; compute_done).
  destruct (postNewLevel_continue h s Hseed Hc) as (H1 & H2 & H3 & _).
  assert (recordingStage s = 1 ∧ recordingStageType s = 0) as [Hst Hty]
    by (by injection Hcur).
  rewrite Hcur in H1. rewrite Hst, Hty in H2.
  replace (advanceCursor (1, 0)) with (1, 1) in H1 by compute_done.
  set (s1 := exec postNewLevel h s) in *.
  rewrite postGameStarted_eligible by done.
  destruct s1 as [m1 cur1 r1 st1 ty1 fm1 sm1 n1 ts1 l1]. state_simpl.
  injection H1 as -> ->. subst ts1 fm1.
  split_and!.
  - done.
  - match goal with |- last (?l ++ [?a; ?b]) = _ =>
      replace (l ++ [a; b]) with ((l ++ [a]) ++ [b]) by (by rewrite <- app_assoc)
    end.
    apply last_snoc.
  - unfold deref. by rewrite lookup_app_r, Nat.sub_diag.
  - rewrite deref_app by (by rewrite length_insert).
    rewrite deref_insert by done. apply lookup_insert_eq.
Qed.

Lemma repeated_seed_skips_first_floor_witness :
  let h := sample_host "A" other_rooms in
  let s := run ((sample_host "A" sample_rooms, MC_POST_NEW_LEVEL) :: full_pass sample_rooms)
               (started h) in
  (is_Some (mod_ s) ∧ (floorsMap s < length (tables s))%nat ∧
   cursor s = (LevelStage.STAGE1_1, StageType.STAGETYPE_ORIGINAL) ∧
   currentStartSeedString s = Some (startSeedString h) ∧
   eligible false h ∧ preventAllCurses h = true) ∧
  last (log (run [(h, MC_POST_NEW_LEVEL); (h, MC_POST_GAME_STARTED false)] s))
    = Some (GoToStage 1 1).
Proof.
  intros h s.
  assert (is_Some (mod_ s)) as H1 by compute_done.
  assert ((floorsMap s < length (tables s))%nat) as H2 by compute_done.
  assert (cursor s = (LevelStage.STAGE1_1, StageType.STAGETYPE_ORIGINAL)) as H3
    by compute_done.
  assert (currentStartSeedString s = Some (startSeedString h)) as H4 by compute_done.
  assert (eligible false h) as H5 by (by repeat split).
  assert (preventAllCurses h = true) as H6 by reflexivity.
  split; [exact (conj H1 (conj H2 (conj H3 (conj H4 (conj H5 H6)))))|].
  destruct (repeated_seed_skips_first_floor h s H1 H2 H3 H4 H5 H6) as (_ & H & _).
  exact H.
Defined.


Lemma snapshot_dom s : dom (snapshot s) = dom (seedsMap s).
Proof. unfold snapshot. apply dom_fmap_L. Qed.

Lemma run_saves_dom evs s :
  is_Some (mod_ s) →
  Forall (λ d, dom d ⊆ dom (seedsMap s)) (saves (log s)) →
  Forall (λ d, dom d ⊆ dom (seedsMap (run evs s))) (saves (log (run evs s))).
Proof.
  revert s. induction evs as [|[h e] evs IH]; intros s Hm Hall; [done|].
  rewrite run_cons. destruct (fire_counter h e s Hm) as [Hmod Hsv].
  destruct (fire_fields s h e Hm) as [_ Hf].
  assert (dom (seedsMap s) ⊆ dom (seedsMap (fire s (h, e)))) as Hsub.
  { destruct Hf as
      [(_ & _ & H3 & _)|[(_ & _ & H3 & _)|[(_ & _ & H3 & _)|(_ & _ & H3 & _)]]];
      rewrite H3; try done.
    rewrite dom_insert_L. apply union_subseteq_r. }
  apply IH; [by rewrite Hmod|].
  assert (Forall (λ d, dom d ⊆ dom (seedsMap (fire s (h, e)))) (saves (log s))) as Hold.
  { eapply Forall_impl; [exact Hall|]. intros d Hd.
    transitivity (dom (seedsMap s)); done. }
  destruct Hsv as [[_ ->]|[_ ->]]; [done|].
  apply Forall_app. split; [done|].
  destruct (_ =? _); [|constructor]. apply Forall_singleton. by rewrite snapshot_dom.
Qed.

(** X19: every durable write is a full write.  At any point of a run, no
    payload written so far holds a seed that is missing from the dataset;
    and whenever an event makes a write, the payload is the whole dataset
    as it then stands, so it holds every seed of every earlier payload. *)
Theorem writes_are_full (h0 : Host) (evs : list (Host * Event))
    (h : Host) (e : Event) (s : State) :
  Forall (λ d, dom d ⊆ dom (seedsMap (run evs (started h0))))
    (saves (log (run evs (started h0)))) ∧
  (is_Some (mod_ s) →
   Forall (λ d, dom d ⊆ dom (seedsMap s)) (saves (log s)) →
   let s' := fire s (h, e) in
   saves (log s') ≠ saves (log s) →
     saves (log s') = saves (log s) ++ [snapshot s'] ∧
     dom (snapshot s') = dom (seedsMap s') ∧
     ∀ d, d ∈ saves (log s) → dom d ⊆ dom (snapshot s')).
Proof.
  split.
  { apply run_saves_dom; [apply started_registered|constructor]. }
  intros Hm Hold. cbv zeta.
  pose proof (run_saves_dom [(h, e)] s Hm Hold) as Hall.
  change (run [(h, e)] s) with (fire s (h, e)) in Hall. rewrite Forall_forall in Hall.
  destruct (fire_counter h e s Hm) as [_ [[_ Hsv]|[_ Hsv]]]; [by rewrite Hsv|].
  rewrite Hsv. destruct (_ =? _); [|by rewrite app_nil_r].
  intros _. split; [done|]. split; [apply snapshot_dom|].
  intros d Hd. rewrite snapshot_dom. apply Hall. rewrite Hsv.
  apply elem_of_app. by left.
Qed.


Lemma writes_are_full_witness :
  let h := sample_host "A" sample_rooms in
  let s' := fire before_write (h, MC_POST_NEW_LEVEL) in
  (is_Some (mod_ before_write) ∧
   Forall (λ d, dom d ⊆ dom (seedsMap before_write)) (saves (log before_write)) ∧
   saves (log s') ≠ saves (log before_write)) ∧
  saves (log s') = [snapshot s'] ∧ dom (snapshot s') = {[ "A" ]}.
Proof.
  intros h s'.
  assert (is_Some (mod_ before_write)) as H1 by (by eexists).
  assert (Forall (λ d, dom d ⊆ dom (seedsMap before_write)) (saves (log before_write)))
    as H2 by constructor.
  assert (saves (log s') ≠ saves (log before_write)) as H3 by compute_done.
  split; [exact (conj H1 (conj H2 H3))|].
  destruct (writes_are_full h [] h MC_POST_NEW_LEVEL before_write) as [_ H].
  destruct (H H1 H2 H3) as (Hsv & _ & _).
  split; [exact Hsv|]. compute_done.
Defined.


Lemma postNewLevel_complete_log h s :
  currentStartSeedString s = Some (startSeedString h) →
  completes (cursor s) = true → is_Some (mod_ s) →
  DebugString ("Total seeds: " +:+ tostring (int_add (seedsMapSize s) 1))
    ∈ log (exec postNewLevel h s).
Proof.
  intros Hseed Hc Hm. destruct s as [m cur r st ty fm sm n ts l].
  state_simpl. subst cur. unfold exec.
  rewrite postNewLevel_eq. cbv zeta. state_simpl.
  rewrite bool_decide_eq_false_2 by (by intros []).
  rewrite recordFloor_eq. state_simpl.
  rewrite moveToNextFloor_eq, incrementStageType_completes_registered by done.
  state_simpl.
  rewrite recordAllFloorsToSeedMap_registered by done. state_simpl.
  apply elem_of_app. right. apply elem_of_app. left.
  apply list_elem_of_In. right. by left.
Qed.

(** X20: the completed-seed counter is a Lua integer and wraps.  When a
    seed is completed with the counter at the largest integer, the seed is
    bound and the restart scheduled as always, the counter becomes the
    smallest integer, which the log reports as
    "Total seeds: -9223372036854775808", and nothing is written, as that
    number is no multiple of [NUMBER_OF_SEEDS_BEFORE_WRITING_TO_DISK]. *)
Theorem counter_wraps (h : Host) (s : State) :
  is_Some (mod_ s) → seedsMapSize s = math_maxinteger →
  fold_completed s h MC_POST_NEW_LEVEL = true →
  let s' := fire s (h, MC_POST_NEW_LEVEL) in
  seedsMapSize s' = math_mininteger ∧
  seedsMapSize s' < seedsMapSize s ∧
  seedsMap s' = <[startSeedString h := floorsMap s]> (seedsMap s) ∧
  DebugString "Total seeds: -9223372036854775808" ∈ log s' ∧
  saves (log s') = saves (log s) ∧
  restart s' = true.
Proof.
  intros Hm Hmax Hfc. cbv zeta.
  pose proof (fire_fold h MC_POST_NEW_LEVEL s Hm) as Hf. cbv zeta in Hf.
  rewrite Hfc in Hf. destruct Hf as (Hmap & Hsz & _ & Hr).
  destruct (fire_saves h MC_POST_NEW_LEVEL s Hm) as [_ Hsv]. specialize (Hsv Hsz).
  unfold fold_completed in Hfc. apply andb_prop in Hfc as [Hrec Hc].
  cbn [records_floor] in Hrec. apply bool_decide_eq_true_1 in Hrec.
  pose proof (postNewLevel_complete_log h s Hrec Hc Hm) as Hlog.
  rewrite Hmax in Hsz, Hlog. rewrite int_add_max in Hsz.
  split_and!; try done.
  - rewrite Hsz, Hmax. done.
  - rewrite Hsv, Hsz. cbn. by rewrite app_nil_r.
Qed.

Lemma counter_wraps_witness :
  let h := sample_host "A" sample_rooms in
  let s := set_seedsMapSize math_maxinteger before_write in
  (is_Some (mod_ s) ∧ seedsMapSize s = math_maxinteger ∧
   fold_completed s h MC_POST_NEW_LEVEL = true) ∧
  seedsMapSize (fire s (h, MC_POST_NEW_LEVEL)) = -9223372036854775808 ∧
  saves (log (fire s (h, MC_POST_NEW_LEVEL))) = [].
Proof.
  intros h s.
  assert (is_Some (mod_ s)) as H1 by (by eexists).
  assert (seedsMapSize s = math_maxinteger) as H2 by reflexivity.
  assert (fold_completed s h MC_POST_NEW_LEVEL = true) as H3 by (by vm_compute).
  split; [exact (conj H1 (conj H2 H3))|].
  destruct (counter_wraps h s H1 H2 H3) as (Hsz & _ & _ & _ & Hsv & _).
  split; [exact Hsz|]. rewrite Hsv. reflexivity.
Defined.
